(** * ORCA load-report header parser (source/common/orca/orca_parser.cc)

    A shallow embedding of [Envoy::Orca::parseOrcaLoadReportHeaders] and of
    the helpers of its anonymous namespace, followed by the properties of the
    decoder that the design document states.

    - strings are [string]; a [string_view] is the string it denotes;
    - [absl::Status] is [Status], [absl::StatusOr<T>] is [StatusOr T];
    - functions that fill [OrcaLoadReport& orca_load_report] take the report
      and return the status together with the report they leave behind;
    - [named_metrics] is a [gmap string double], the set of metric names seen
      by the plain-text decoder is a [gset string];
    - the collaborators that are not part of the translation unit
      (the numeric parser, the JSON codec, base64 and the protobuf
      deserializer) are the fields of the class [Collaborators]. *)

From Stdlib Require Import ZArith NArith Bool Ascii Lia.
From Stdlib Require Import Floats.SpecFloat.
From stdpp Require Import gmap strings list.

Local Open Scope stdpp_scope.
#[local] Set Warnings "-clear-no-such-hyp".

(** ** absl::Status *)

Module absl.

Inductive StatusCode :=
| kCancelled | kUnknown | kInvalidArgument | kDeadlineExceeded | kNotFound
| kAlreadyExists | kPermissionDenied | kResourceExhausted
| kFailedPrecondition | kAborted | kOutOfRange | kUnimplemented | kInternal
| kUnavailable | kDataLoss | kUnauthenticated.

Inductive Status :=
| OkStatus
| Error (code : StatusCode) (message : string).

Definition InvalidArgumentError (m : string) : Status := Error kInvalidArgument m.
Definition NotFoundError (m : string) : Status := Error kNotFound m.
Definition AlreadyExistsError (m : string) : Status := Error kAlreadyExists m.

Definition ok (s : Status) : bool :=
  match s with OkStatus => true | Error _ _ => false end.

Inductive StatusOr (T : Type) :=
| Value (v : T)
| Failed (code : StatusCode) (message : string).
Arguments Value {T} v.
Arguments Failed {T} code message.

(** [absl::StrCat] of a list of pieces. *)
Fixpoint StrCat (pieces : list string) : string :=
  match pieces with
  | [] => ""
  | p :: ps => p +:+ StrCat ps
  end.

(** [absl::ascii_isspace]: space, \t, \n, \v, \f, \r. *)
Definition ascii_isspace (c : ascii) : bool :=
  let n := N_of_ascii c in
  ((9 <=? n) && (n <=? 13) || (n =? 32))%N.

Definition empty (s : string) : bool :=
  match s with EmptyString => true | String _ _ => false end.

Fixpoint StripLeadingAsciiWhitespace (s : string) : string :=
  match s with
  | EmptyString => EmptyString
  | String c s' =>
      if ascii_isspace c then StripLeadingAsciiWhitespace s' else s
  end.

Fixpoint StripTrailingAsciiWhitespace (s : string) : string :=
  match s with
  | EmptyString => EmptyString
  | String c s' =>
      let t := StripTrailingAsciiWhitespace s' in
      if ascii_isspace c && empty t then EmptyString else String c t
  end.

Definition StripAsciiWhitespace (s : string) : string :=
  StripTrailingAsciiWhitespace (StripLeadingAsciiWhitespace s).

(** [absl::StrSplit(text, c)] with the [ByChar] delimiter and the default
    [AllowEmpty] predicate: every piece between two delimiters, empty
    pieces included; the empty text gives one empty piece. *)
Fixpoint StrSplit (text : string) (c : ascii) : list string :=
  match text with
  | EmptyString => [EmptyString]
  | String a text' =>
      if Ascii.eqb a c then EmptyString :: StrSplit text' c
      else match StrSplit text' c with
           | p :: ps => String a p :: ps
           | [] => [String a EmptyString]
           end
  end.

(** The text before and after the first occurrence of [c], if any: one
    successful [Find] of the [ByChar] delimiter. *)
Fixpoint FindFirst (text : string) (c : ascii) : option (string * string) :=
  match text with
  | EmptyString => None
  | String a text' =>
      if Ascii.eqb a c then Some (EmptyString, text')
      else match FindFirst text' c with
           | Some (before, after) => Some (String a before, after)
           | None => None
           end
  end.

(** [absl::StrSplit(text, absl::MaxSplits(c, limit))]: at most [limit]
    delimiters are matched, the last piece holds the unsplit rest. *)
Fixpoint StrSplitMax (text : string) (c : ascii) (limit : nat) : list string :=
  match limit with
  | O => [text]
  | S limit' =>
      match FindFirst text c with
      | Some (before, after) => before :: StrSplitMax after c limit'
      | None => [text]
      end
  end.

(** The predicate [absl::SkipWhitespace]: a piece is kept when it is not
    empty once stripped. The piece itself is handed on as it is. *)
Definition SkipWhitespace (piece : string) : bool :=
  negb (empty (StripAsciiWhitespace piece)).

(** Conversion of a split result to [std::pair<string_view, string_view>]:
    the first two kept pieces, a missing piece being the empty view. *)
Definition to_pair (pieces : list string) : string * string :=
  match pieces with
  | [] => (EmptyString, EmptyString)
  | [first] => (first, EmptyString)
  | first :: second :: _ => (first, second)
  end.

End absl.
Export absl.

(** ** std::string_view operations used by the parser *)

Module string_view.

(** [npos], the largest [size_t]. *)
Definition npos : N := (2 ^ 64 - 1)%N.

Definition size (s : string) : N := N.of_nat (String.length s).

Fixpoint find_from (s : string) (c : ascii) (i : N) : N :=
  match s with
  | EmptyString => npos
  | String a s' => if Ascii.eqb a c then i else find_from s' c (i + 1)%N
  end.

(** [s.find(c)]: index of the first [c], or [npos]. *)
Definition find (s : string) (c : ascii) : N := find_from s c 0%N.

Fixpoint remove_prefix (n : nat) (s : string) : string :=
  match n, s with
  | O, _ => s
  | S n', String _ s' => remove_prefix n' s'
  | S _, EmptyString => EmptyString
  end.

(** [s.substr(pos)]. The standard throws [std::out_of_range] when
    [pos > size()]; the single call of the parser stays in range
    (lemma [find_dot_in_range] below), and the model returns the empty view
    there. *)
Definition substr (s : string) (pos : N) : string :=
  if (pos <=? size s)%N then remove_prefix (N.to_nat pos) s else EmptyString.

Fixpoint starts_with (s prefix : string) {struct prefix} : bool :=
  match prefix, s with
  | EmptyString, _ => true
  | String p prefix', String a s' => Ascii.eqb a p && starts_with s' prefix'
  | String _ _, EmptyString => false
  end.

(** [size_t] addition. *)
Definition size_add (a b : N) : N := ((a + b) mod 2 ^ 64)%N.

End string_view.

(** ** The load report *)

(** A C++ [double]: an IEEE 754 binary64 value. *)
Definition double : Type := spec_float.

Module binary64.
Definition prec : Z := 53.
Definition emax : Z := 1024.

Definition zero : double := S754_zero false.

(** [std::isfinite]. *)
Definition is_finite (d : double) : bool :=
  match d with
  | S754_zero _ | S754_finite _ _ _ => true
  | S754_infinity _ | S754_nan => false
  end.

(** The binary64 values nearest to 0.5 and to 0.7. *)
Definition d0_5 : double := S754_finite false 4503599627370496 (-53).
Definition d0_7 : double := S754_finite false 6305039478318694 (-53).
End binary64.

(** Modelled from the spec: the message type [xds::data::orca::v3::OrcaLoadReport]
    is generated from a .proto file that is not among the sources. The design
    document gives it five scalar fields, each a 64-bit floating-point value
    with default zero, and the map [named_metrics] from metric name to value. *)
Record OrcaLoadReport := mkOrcaLoadReport {
  cpu_utilization : double;
  mem_utilization : double;
  application_utilization : double;
  eps : double;
  rps_fractional : double;
  named_metrics : gmap string double
}.

(** A freshly constructed message: [OrcaLoadReport load_report;]. *)
Definition default_OrcaLoadReport : OrcaLoadReport :=
  mkOrcaLoadReport binary64.zero binary64.zero binary64.zero binary64.zero
    binary64.zero ∅.

Definition set_cpu_utilization (v : double) (r : OrcaLoadReport) : OrcaLoadReport :=
  mkOrcaLoadReport v (mem_utilization r) (application_utilization r) (eps r)
    (rps_fractional r) (named_metrics r).
Definition set_mem_utilization (v : double) (r : OrcaLoadReport) : OrcaLoadReport :=
  mkOrcaLoadReport (cpu_utilization r) v (application_utilization r) (eps r)
    (rps_fractional r) (named_metrics r).
Definition set_application_utilization (v : double) (r : OrcaLoadReport) : OrcaLoadReport :=
  mkOrcaLoadReport (cpu_utilization r) (mem_utilization r) v (eps r)
    (rps_fractional r) (named_metrics r).
Definition set_eps (v : double) (r : OrcaLoadReport) : OrcaLoadReport :=
  mkOrcaLoadReport (cpu_utilization r) (mem_utilization r)
    (application_utilization r) v (rps_fractional r) (named_metrics r).
Definition set_rps_fractional (v : double) (r : OrcaLoadReport) : OrcaLoadReport :=
  mkOrcaLoadReport (cpu_utilization r) (mem_utilization r)
    (application_utilization r) (eps r) v (named_metrics r).
Definition set_named_metrics (m : gmap string double) (r : OrcaLoadReport) : OrcaLoadReport :=
  mkOrcaLoadReport (cpu_utilization r) (mem_utilization r)
    (application_utilization r) (eps r) (rps_fractional r) m.

(** [Map::try_emplace(key, value)]: inserts only when the key is absent and
    says whether it inserted. *)
Definition try_emplace (key : string) (v : double) (m : gmap string double)
  : gmap string double * bool :=
  match m !! key with
  | Some _ => (m, false)
  | None => (<[key := v]> m, true)
  end.

(** ** The header map *)

Module Http.

(** [Http::LowerCaseString]: the ASCII lower-casing of a header name. *)
Definition to_lower (c : ascii) : ascii :=
  let n := N_of_ascii c in
  if ((65 <=? n) && (n <=? 90))%N then ascii_of_N (n + 32) else c.

Fixpoint LowerCaseString (s : string) : string :=
  match s with
  | EmptyString => EmptyString
  | String c s' => String (to_lower c) (LowerCaseString s')
  end.

Record HeaderEntry := mkHeaderEntry { key : string; value : string }.

(** Modelled from the spec: [Http::HeaderMap] is declared in
    envoy/http/header_map.h, which is not among the sources. The design
    document describes it as an ordered multi-valued mapping from
    lower-cased string keys to string values, queried by exact key. *)
Abbreviation HeaderMap := (list HeaderEntry) (only parsing).

(** [HeaderMap::GetResult]: the entries of one key, in header order. *)
Abbreviation GetResult := (list HeaderEntry) (only parsing).

(** Modelled from the spec: [HeaderMap::get(key)], every entry stored
    under exactly [key], in the order of the map. *)
Definition get (headers : HeaderMap) (k : string) : GetResult :=
  filter (λ e, key e = k) headers.

Definition is_empty (r : GetResult) : bool :=
  match r with [] => true | _ :: _ => false end.

(** Modelled from the spec: the loop of
    [HeaderUtility::parseCommaDelimitedHeader], which is defined in
    source/common/http/header_utility.cc and is not among the sources. The
    design document says that it splits the value on commas, trims the
    whitespace around each token and skips empty tokens; the loop walks the
    pieces in order and appends every kept token. *)
Fixpoint collectTokens (pieces values : list string) : list string :=
  match pieces with
  | [] => values
  | s :: pieces' =>
      let token := StripAsciiWhitespace s in
      if empty token then collectTokens pieces' values
      else collectTokens pieces' (values ++ [token])
  end.

(** Modelled from the spec: [HeaderUtility::parseCommaDelimitedHeader],
    the tokens of one header value: its comma-separated pieces, trimmed, the
    empty ones skipped. *)
Definition HeaderUtility_parseCommaDelimitedHeader (header_value : string)
  : list string :=
  collectTokens (StrSplit header_value ",") [].

End Http.

(** ** strings::safe_strtod *)

Module numbers.

Definition digit_value (c : ascii) : option Z :=
  let n := N_of_ascii c in
  if ((48 <=? n) && (n <=? 57))%N then Some (Z.of_N n - 48)%Z else None.

(** The longest run of digits at the head of [s]: the number read so far,
    how many digits were read, and what follows them. *)
Fixpoint read_digits (s : string) (acc count : Z) : Z * Z * string :=
  match s with
  | EmptyString => (acc, count, EmptyString)
  | String c s' =>
      match digit_value c with
      | Some d => read_digits s' (10 * acc + d)%Z (count + 1)%Z
      | None => (acc, count, s)
      end
  end.

Definition read_sign (s : string) : bool * string :=
  match s with
  | String c s' =>
      if Ascii.eqb c "-" then (true, s')
      else if Ascii.eqb c "+" then (false, s')
      else (false, s)
  | EmptyString => (false, s)
  end.

(** A decimal literal: sign, digits and power of ten. *)
Record decimal := mkDecimal { negative : bool; digits : Z; exponent10 : Z }.

Definition read_exponent (s : string) : Z * string :=
  match s with
  | String c s' =>
      if Ascii.eqb c "e" || Ascii.eqb c "E" then
        let (eneg, s1) := read_sign s' in
        let '(e, n, s2) := read_digits s1 0 0 in
        if (n =? 0)%Z then (0%Z, s) else ((if eneg then - e else e)%Z, s2)
      else (0%Z, s)
  | EmptyString => (0%Z, s)
  end.

(** The digits after the point, if there is a point: they extend the
    number read so far. *)
Definition read_fraction (s : string) (int_part : Z) : Z * Z * string :=
  match s with
  | String c s' =>
      if Ascii.eqb c "." then read_digits s' int_part 0 else (int_part, 0%Z, s)
  | EmptyString => (int_part, 0%Z, s)
  end.

(** The grammar [sign? digit* (. digit* )? (e sign? digit+)?] with at least
    one digit before the exponent; returns the literal and the text after
    it. *)
Definition read_number (s : string) : option (decimal * string) :=
  let (neg, s1) := read_sign s in
  let '(int_part, n1, s2) := read_digits s1 0 0 in
  let '(m, n2, s3) := read_fraction s2 int_part in
  if (n1 + n2 =? 0)%Z then None
  else
    let (e, s4) := read_exponent s3 in
    Some (mkDecimal neg m (e - n2), s4).

(** The binary64 value nearest to the literal (ties to even). *)
Definition to_double (d : decimal) : double :=
  match digits d with
  | Zpos m =>
      if (0 <=? exponent10 d)%Z then
        binary_round binary64.prec binary64.emax (negative d)
          (m * Z.to_pos (10 ^ exponent10 d)) 0
      else
        SFdiv binary64.prec binary64.emax
          (S754_finite (negative d) m 0)
          (S754_finite false (Z.to_pos (10 ^ (- exponent10 d))) 0)
  | _ => S754_zero (negative d)
  end.

(** Modelled from the spec: [strings::safe_strtod] is declared in
    strings/numbers.h, which is not among the sources. The design document
    says that the value-string is parsed as a finite 64-bit floating-point
    number by a strict numeric grammar that must consume the entire
    string. [None] stands for the result [false]. *)
Definition safe_strtod (s : string) : option double :=
  match read_number s with
  | Some (d, EmptyString) =>
      let v := to_double d in
      if binary64.is_finite v then Some v else None
  | _ => None
  end.

End numbers.

(** ** Collaborators *)

(** [Protobuf::util::JsonParseOptions], the two options the parser sets. *)
Record JsonParseOptions := mkJsonParseOptions {
  case_insensitive_enum_parsing : bool;
  ignore_unknown_fields : bool
}.

(** The functions the translation unit calls and does not define.
    - [safe_strtod value] is [Some d] when [strings::safe_strtod] returns
      [true] and stores [d];
    - [JsonStringToMessage json report options] merges the JSON text into the
      message and returns its status;
    - [Base64_decode] is [Base64::decode];
    - [ParseFromString data report] is the protobuf deserializer, returning
      its [bool] and the message it leaves. *)
Class Collaborators := {
  safe_strtod : string → option double;
  JsonStringToMessage :
    string → OrcaLoadReport → JsonParseOptions → Status * OrcaLoadReport;
  Base64_decode : string → string;
  ParseFromString : string → OrcaLoadReport → bool * OrcaLoadReport
}.

(** ** orca_parser.h *)

Definition kEndpointLoadMetricsHeader : string := "x-endpoint-load-metrics".
Definition kEndpointLoadMetricsHeaderBin : string := "x-endpoint-load-metrics-bin".
Definition kEndpointLoadMetricsHeaderJson : string := "x-endpoint-load-metrics-json".

(** ** orca_parser.cc *)

(** [RETURN_IF_ERROR(expr)] followed by the rest of the function. *)
Notation "'RETURN_IF_ERROR' r '<-' e ';' k" :=
  (match e with
   | (OkStatus, r) => k
   | (Error code message, r) => (Error code message, r)
   end)
  (at level 10, r name, e at level 99, k at level 200, only parsing).

Definition tryCopyNamedMetricToOrcaLoadReport
    (metric_name : string) (metric_value : double)
    (orca_load_report : OrcaLoadReport) : Status * OrcaLoadReport :=
  if empty metric_name then
    (InvalidArgumentError "named metric key is empty.", orca_load_report)
  else
    let (named, inserted) :=
      try_emplace metric_name metric_value (named_metrics orca_load_report) in
    if negb inserted then
      (AlreadyExistsError
         (StrCat [kEndpointLoadMetricsHeader;
                  " contains duplicate named metric: "; metric_name]),
       set_named_metrics named orca_load_report)
    else (OkStatus, set_named_metrics named orca_load_report).

(** The file's own [parseCommaDelimitedHeader]: the tokens of every
    occurrence, appended to [values] in the order of the occurrences. *)
Fixpoint parseCommaDelimitedHeader_loop
    (entry : Http.GetResult) (values : list string) : list string :=
  match entry with
  | [] => values
  | e :: entry' =>
      let tokens := Http.HeaderUtility_parseCommaDelimitedHeader (Http.value e) in
      parseCommaDelimitedHeader_loop entry' (values ++ tokens)
  end.

Definition parseCommaDelimitedHeader (entry : Http.GetResult) : list string :=
  parseCommaDelimitedHeader_loop entry [].

Section Parser.
Context `{Collaborators}.

Definition tryCopyMetricToOrcaLoadReport
    (metric_name metric_value : string) (orca_load_report : OrcaLoadReport)
  : Status * OrcaLoadReport :=
  if empty metric_name then
    (InvalidArgumentError "metric names cannot be empty strings",
     orca_load_report)
  else if empty metric_value then
    (InvalidArgumentError "metric values cannot be empty strings",
     orca_load_report)
  else
    match safe_strtod metric_value with
    | None =>
        (InvalidArgumentError
           (StrCat ["unable to parse custom backend load metric value({}): ";
                    metric_name; metric_value]),
         orca_load_report)
    | Some value =>
        if string_view.starts_with metric_name "named_metrics." then
          let metric_name_without_prefix :=
            string_view.substr metric_name
              (string_view.size_add (string_view.find metric_name ".") 1) in
          tryCopyNamedMetricToOrcaLoadReport
            metric_name_without_prefix value orca_load_report
        else if decide (metric_name = "cpu_utilization") then
          (OkStatus, set_cpu_utilization value orca_load_report)
        else if decide (metric_name = "mem_utilization") then
          (OkStatus, set_mem_utilization value orca_load_report)
        else if decide (metric_name = "application_utilization") then
          (OkStatus, set_application_utilization value orca_load_report)
        else if decide (metric_name = "eps") then
          (OkStatus, set_eps value orca_load_report)
        else if decide (metric_name = "rps_fractional") then
          (OkStatus, set_rps_fractional value orca_load_report)
        else
          (InvalidArgumentError
             (StrCat ["unsupported metric name: "; metric_name]),
           orca_load_report)
    end.

(** [absl::StrSplit(value, absl::MaxSplits(':', 1), absl::SkipWhitespace())]
    converted to a pair. *)
Definition splitMetric (value : string) : string * string :=
  to_pair (filter (λ piece, SkipWhitespace piece = true)
                  (StrSplitMax value ":" 1)).

(** The loop of [tryParseNativeHttpEncoded] over the tokens, with the set
    [metric_names] of the names assigned so far. *)
Fixpoint tryParseNativeHttpEncoded_loop
    (values : list string) (metric_names : gset string)
    (orca_load_report : OrcaLoadReport) : Status * OrcaLoadReport :=
  match values with
  | [] => (OkStatus, orca_load_report)
  | value :: values' =>
      let entry := splitMetric value in
      if decide (entry.1 ∈ metric_names) then
        (AlreadyExistsError
           (StrCat [kEndpointLoadMetricsHeader;
                    " contains duplicate metric: "; entry.1]),
         orca_load_report)
      else
        RETURN_IF_ERROR report <-
          tryCopyMetricToOrcaLoadReport entry.1 entry.2 orca_load_report ;
        tryParseNativeHttpEncoded_loop values' ({[entry.1]} ∪ metric_names)
          report
  end.

Definition tryParseNativeHttpEncoded
    (header : Http.GetResult) (orca_load_report : OrcaLoadReport)
  : Status * OrcaLoadReport :=
  if Http.is_empty header then
    (InvalidArgumentError "header is empty.", orca_load_report)
  else
    let values := parseCommaDelimitedHeader header in
    tryParseNativeHttpEncoded_loop values ∅ orca_load_report.

(** The three format blocks of [parseOrcaLoadReportHeaders], each entered
    when its header is present. *)
Definition parseNativeHttp (load_metrics_native_http : Http.GetResult)
    (load_report : OrcaLoadReport) : Status * OrcaLoadReport :=
  if negb (Http.is_empty load_metrics_native_http) then
    tryParseNativeHttpEncoded load_metrics_native_http load_report
  else (OkStatus, load_report).

Definition parseJson (load_metrics_json : Http.GetResult)
    (load_report : OrcaLoadReport) : Status * OrcaLoadReport :=
  match load_metrics_json with
  | first :: _ =>
      let json_string := Http.value first in
      let options := mkJsonParseOptions true false in
      JsonStringToMessage json_string load_report options
  | [] => (OkStatus, load_report)
  end.

Definition parseBinary (load_metrics_bin : Http.GetResult)
    (load_report : OrcaLoadReport) : Status * OrcaLoadReport :=
  match load_metrics_bin with
  | first :: _ =>
      let header_value := Http.value first in
      let decoded_value := Base64_decode header_value in
      let (parsed, report) := ParseFromString decoded_value load_report in
      if negb parsed then
        (InvalidArgumentError
           (StrCat ["unable to parse binaryheader to OrcaLoadReport: ";
                    header_value]),
         report)
      else (OkStatus, report)
  | [] => (OkStatus, load_report)
  end.

Definition parseOrcaLoadReportHeaders (headers : Http.HeaderMap)
  : StatusOr OrcaLoadReport :=
  let load_report := default_OrcaLoadReport in
  let load_metrics_native_http :=
    Http.get headers (Http.LowerCaseString kEndpointLoadMetricsHeader) in
  let load_metrics_json :=
    Http.get headers (Http.LowerCaseString kEndpointLoadMetricsHeaderJson) in
  let load_metrics_bin :=
    Http.get headers (Http.LowerCaseString kEndpointLoadMetricsHeaderBin) in
  if Http.is_empty load_metrics_native_http
     && Http.is_empty load_metrics_json
     && Http.is_empty load_metrics_bin then
    Failed kNotFound "no ORCA data sent from the backend"
  else if (negb (Http.is_empty load_metrics_native_http)
           && negb (Http.is_empty load_metrics_json))
          || (negb (Http.is_empty load_metrics_native_http)
              && negb (Http.is_empty load_metrics_bin))
          || (negb (Http.is_empty load_metrics_json)
              && negb (Http.is_empty load_metrics_bin)) then
    Failed kInvalidArgument "more than one ORCA header found"
  else
    let result :=
      RETURN_IF_ERROR report1 <-
        parseNativeHttp load_metrics_native_http load_report ;
      RETURN_IF_ERROR report2 <- parseJson load_metrics_json report1 ;
      RETURN_IF_ERROR report3 <- parseBinary load_metrics_bin report2 ;
      (OkStatus, report3) in
    match result with
    | (OkStatus, report) => Value report
    | (Error code message, _) => Failed code message
    end.

End Parser.

(** The collaborators used to run the parser on concrete inputs: the
    numeric parser of the design document, a JSON codec that accepts the
    empty object alone, and a deserializer that accepts the empty payload
    alone. *)
Definition strict_collaborators : Collaborators := {|
  safe_strtod := numbers.safe_strtod;
  JsonStringToMessage := λ json report _,
    if decide (json = "{}") then (OkStatus, report)
    else (InvalidArgumentError (StrCat ["invalid JSON: "; json]), report);
  Base64_decode := λ s, s;
  ParseFromString := λ data report, (empty data, report)
|}.

(** ** Vocabulary of the statements *)

(** The characters a decimal literal is made of. *)
Definition numeric_char (c : ascii) : bool :=
  match numbers.digit_value c with
  | Some _ => true
  | None =>
      Ascii.eqb c "+" || Ascii.eqb c "-" || Ascii.eqb c "."
      || Ascii.eqb c "e" || Ascii.eqb c "E"
  end.

Fixpoint all_chars (P : ascii → bool) (s : string) : bool :=
  match s with
  | EmptyString => true
  | String c s' => P c && all_chars P s'
  end.

(** What a reader of the grammar consumes: a head of the text, made of
    literal characters, with the rest handed back. *)
Definition consumes (s rest : string) : Prop :=
  ∃ head, s = head +:+ rest ∧ all_chars numeric_char head = true.

(** The digits [ds] spell the number [n]: they begin with a digit, and
    reading them from zero goes on after them with [n]. *)
Definition spells (ds : string) (n : Z) : Prop :=
  (∃ c ds', ds = String c ds' ∧ is_Some (numbers.digit_value c))
  ∧ ∃ len, (0 < len)%Z
           ∧ ∀ rest count,
               numbers.read_digits (ds +:+ rest) 0 count
               = numbers.read_digits rest n (count + len).

(** [c] occurs in [s]. *)
Fixpoint contains (s : string) (c : ascii) : bool :=
  match s with
  | EmptyString => false
  | String a s' => Ascii.eqb a c || contains s' c
  end.

(** The pieces joined again with the delimiter between them. *)
Fixpoint join (pieces : list string) (c : ascii) : string :=
  match pieces with
  | [] => EmptyString
  | [p] => p
  | p :: ps => p +:+ String c (join ps c)
  end.

(** The metric name and the value-string the plain-text decoder reads from
    a token. *)
Definition metric_name_of (token : string) : string := (splitMetric token).1.
Definition metric_value_of (token : string) : string := (splitMetric token).2.

(** The key has at least one entry in the header map. *)
Definition present (headers : Http.HeaderMap) (k : string) : bool :=
  negb (Http.is_empty (Http.get headers k)).

(** How many of the three ORCA keys are present. *)
Definition formats_present (headers : Http.HeaderMap) : nat :=
  length (filter (λ k, present headers k = true)
            [kEndpointLoadMetricsHeader; kEndpointLoadMetricsHeaderJson;
             kEndpointLoadMetricsHeaderBin]).

(** The five fixed field names. *)
Definition fixed_field_names : list string :=
  ["cpu_utilization"; "mem_utilization"; "application_utilization"; "eps";
   "rps_fractional"].

(** The field of the report a fixed metric name designates. *)
Definition field_of (metric_name : string) (r : OrcaLoadReport) : option double :=
  if decide (metric_name = "cpu_utilization") then Some (cpu_utilization r)
  else if decide (metric_name = "mem_utilization") then Some (mem_utilization r)
  else if decide (metric_name = "application_utilization") then
    Some (application_utilization r)
  else if decide (metric_name = "eps") then Some (eps r)
  else if decide (metric_name = "rps_fractional") then Some (rps_fractional r)
  else None.

(** A header map with a single entry. *)
Definition single_header (k v : string) : Http.HeaderMap :=
  [Http.mkHeaderEntry k v].

(** A token the assigner can take on its own: a value-string that is not
    empty and that the numeric parser reads, and a name that is a fixed
    field or [named_metrics.] followed by a key that is not empty. *)
Definition assignable `{Collaborators} (token : string) : Prop :=
  empty (metric_value_of token) = false
  ∧ is_Some (safe_strtod (metric_value_of token))
  ∧ (metric_name_of token ∈ fixed_field_names
     ∨ (string_view.starts_with (metric_name_of token) "named_metrics." = true
        ∧ metric_name_of token ≠ "named_metrics.")).

(** The keys under which the tokens would enter the named-metric map are
    not in the map of the report yet. *)
Definition named_keys_free (tokens : list string) (r : OrcaLoadReport) : Prop :=
  ∀ token key,
    token ∈ tokens →
    metric_name_of token = "named_metrics." +:+ key →
    named_metrics r !! key = None.

(** One of the three ORCA keys. *)
Definition orca_key (k : string) : Prop :=
  k = kEndpointLoadMetricsHeader ∨ k = kEndpointLoadMetricsHeaderJson
  ∨ k = kEndpointLoadMetricsHeaderBin.

(** ** Strings *)

Lemma append_cons (c : ascii) (s t : string) :
  String c s +:+ t = String c (s +:+ t).
Proof. reflexivity. Qed.

Lemma append_nil (t : string) : "" +:+ t = t.
Proof. reflexivity. Qed.

Lemma append_empty_r (s : string) : s +:+ "" = s.
Proof.
  induction s as [|c s IH]; [done |]. by rewrite append_cons, IH.
Qed.

Lemma append_assoc (s t u : string) : (s +:+ t) +:+ u = s +:+ t +:+ u.
Proof.
  induction s as [|c s IH]; [done |]. by rewrite !append_cons, IH.
Qed.

Lemma empty_false (s : string) : empty s = false ↔ s ≠ "".
Proof. destruct s; simpl; split; congruence. Qed.

Lemma FindFirst_absent (s : string) (c : ascii) :
  contains s c = false → FindFirst s c = None.
Proof.
  induction s as [|a s IH]; simpl; [done |].
  destruct (Ascii.eqb a c); simpl; [done |].
  intros Hs. by rewrite IH.
Qed.

Lemma FindFirst_first (before after : string) (c : ascii) :
  contains before c = false →
  FindFirst (before +:+ String c after) c = Some (before, after).
Proof.
  induction before as [|a before IH]; rewrite ?append_nil, ?append_cons; simpl.
  - by rewrite Ascii.eqb_refl.
  - destruct (Ascii.eqb a c); simpl; [done |].
    intros Hb. by rewrite IH.
Qed.

Lemma FindFirst_inv (s before after : string) (c : ascii) :
  FindFirst s c = Some (before, after) →
  s = before +:+ String c after ∧ contains before c = false.
Proof.
  revert before. induction s as [|a s IH]; simpl; intros before; [done |].
  destruct (Ascii.eqb a c) eqn:Hac.
  - intros [= <- <-]. apply Ascii.eqb_eq in Hac as ->. done.
  - destruct (FindFirst s c) as [[b' a']|] eqn:Hf; [|done].
    intros [= <- <-]. destruct (IH b' eq_refl) as [-> Hb].
    rewrite append_cons. simpl. by rewrite Hac.
Qed.

Lemma splitMetric_colon (name rest : string) :
  contains name ":" = false →
  splitMetric (name +:+ String ":" rest) =
    if SkipWhitespace name then
      if SkipWhitespace rest then (name, rest) else (name, "")
    else
      if SkipWhitespace rest then (rest, "") else ("", "").
Proof.
  intros Hname. unfold splitMetric. cbn [StrSplitMax].
  rewrite (FindFirst_first _ _ _ Hname).
  rewrite !filter_cons, filter_nil.
  destruct (SkipWhitespace name), (SkipWhitespace rest);
    repeat case_decide; try done.
Qed.

Lemma splitMetric_no_colon (token : string) :
  contains token ":" = false →
  splitMetric token = if SkipWhitespace token then (token, "") else ("", "").
Proof.
  intros Htok. unfold splitMetric. cbn [StrSplitMax].
  rewrite (FindFirst_absent _ _ Htok), filter_cons, filter_nil.
  destruct (SkipWhitespace token); case_decide; done.
Qed.

(** C1 (amended): every token is split at its first colon only. A half that
    is empty or all whitespace is skipped, the other half (if any) taking the
    first place and the missing places being empty; the halves that are kept
    are used exactly as they stand in the token, further colons and
    surrounding whitespace included, as metric name and value-string. *)
Theorem splitMetric_first_colon_verbatim (name rest : string) :
  contains name ":" = false →
  let token := name +:+ String ":" rest in
  (metric_name_of token, metric_value_of token) =
    match SkipWhitespace name, SkipWhitespace rest with
    | true, true => (name, rest)
    | true, false => (name, "")
    | false, true => (rest, "")
    | false, false => ("", "")
    end.
Proof.
  intros Hname token. unfold metric_name_of, metric_value_of, token.
  rewrite (splitMetric_colon _ _ Hname).
  by destruct (SkipWhitespace name), (SkipWhitespace rest).
Qed.

Lemma splitMetric_first_colon_verbatim_witness :
  contains "eps " ":" = false ∧
  (metric_name_of "eps : 1:2", metric_value_of "eps : 1:2") = ("eps ", " 1:2").
Proof.
  split; [reflexivity |].
  exact (splitMetric_first_colon_verbatim "eps " " 1:2" eq_refl).
Defined.

(** C1 as stated fails: the halves of the token [eps : 1] keep the
    whitespace around the colon, and differ from their trimmed forms. *)
Lemma splitMetric_halves_not_trimmed :
  (metric_name_of "eps : 1", metric_value_of "eps : 1") = ("eps ", " 1") ∧
  StripAsciiWhitespace "eps " = "eps" ∧
  StripAsciiWhitespace " 1" = "1" ∧
  metric_name_of "eps : 1" ≠ StripAsciiWhitespace (metric_name_of "eps : 1") ∧
  metric_value_of "eps : 1" ≠ StripAsciiWhitespace (metric_value_of "eps : 1") ∧
  @parseOrcaLoadReportHeaders strict_collaborators
    (single_header kEndpointLoadMetricsHeader "eps :1")
  = Failed kInvalidArgument "unsupported metric name: eps ".
Proof. repeat split; vm_compute; congruence. Qed.

(** ** Encoding selection *)

Lemma get_single_same (k v : string) :
  Http.get (single_header k v) k = [Http.mkHeaderEntry k v].
Proof.
  unfold Http.get, single_header. rewrite filter_cons, filter_nil.
  by rewrite decide_True.
Qed.

Lemma get_single_other (k k' v : string) :
  k ≠ k' → Http.get (single_header k v) k' = [].
Proof.
  intros Hk. unfold Http.get, single_header. rewrite filter_cons, filter_nil.
  by rewrite decide_False.
Qed.

Lemma formats_present_count (headers : Http.HeaderMap) :
  formats_present headers =
    Nat.b2n (present headers kEndpointLoadMetricsHeader)
    + Nat.b2n (present headers kEndpointLoadMetricsHeaderJson)
    + Nat.b2n (present headers kEndpointLoadMetricsHeaderBin).
Proof.
  unfold formats_present. rewrite !filter_cons, filter_nil.
  destruct (present headers kEndpointLoadMetricsHeader),
    (present headers kEndpointLoadMetricsHeaderJson),
    (present headers kEndpointLoadMetricsHeaderBin);
    repeat case_decide; done.
Qed.

Section Dispatch.
Context `{Collaborators}.

(** The dispatcher in terms of the three look-ups. *)
Lemma parseOrcaLoadReportHeaders_lookups (headers : Http.HeaderMap) :
  parseOrcaLoadReportHeaders headers =
    let native := Http.get headers kEndpointLoadMetricsHeader in
    let json := Http.get headers kEndpointLoadMetricsHeaderJson in
    let bin := Http.get headers kEndpointLoadMetricsHeaderBin in
    match native, json, bin with
    | [], [], [] => Failed kNotFound "no ORCA data sent from the backend"
    | _ :: _, [], [] =>
        match tryParseNativeHttpEncoded native default_OrcaLoadReport with
        | (OkStatus, report) => Value report
        | (Error code message, _) => Failed code message
        end
    | [], _ :: _, [] =>
        match parseJson json default_OrcaLoadReport with
        | (OkStatus, report) => Value report
        | (Error code message, _) => Failed code message
        end
    | [], [], _ :: _ =>
        match parseBinary bin default_OrcaLoadReport with
        | (OkStatus, report) => Value report
        | (Error code message, _) => Failed code message
        end
    | _, _, _ => Failed kInvalidArgument "more than one ORCA header found"
    end.
Proof.
  unfold parseOrcaLoadReportHeaders.
  change (Http.LowerCaseString kEndpointLoadMetricsHeader)
    with kEndpointLoadMetricsHeader.
  change (Http.LowerCaseString kEndpointLoadMetricsHeaderJson)
    with kEndpointLoadMetricsHeaderJson.
  change (Http.LowerCaseString kEndpointLoadMetricsHeaderBin)
    with kEndpointLoadMetricsHeaderBin.
  destruct (Http.get headers kEndpointLoadMetricsHeader) as [|n ns],
    (Http.get headers kEndpointLoadMetricsHeaderJson) as [|j js],
    (Http.get headers kEndpointLoadMetricsHeaderBin) as [|b bs];
    cbn [Http.is_empty negb andb orb]; try reflexivity.
  - unfold parseNativeHttp, parseJson. cbn [Http.is_empty negb].
    destruct (parseBinary _ _) as [[|code message] report]; reflexivity.
  - unfold parseNativeHttp, parseBinary. cbn [Http.is_empty negb].
    destruct (parseJson _ _) as [[|code message] report]; reflexivity.
  - unfold parseNativeHttp, parseJson, parseBinary. cbn [Http.is_empty negb].
    destruct (tryParseNativeHttpEncoded _ _) as [[|code message] report];
      reflexivity.
Qed.

(** C4: when none of the three keys has an entry in the header map, the
    parser returns NotFound. *)
Theorem no_format_is_not_found (headers : Http.HeaderMap) :
  formats_present headers = 0 →
  parseOrcaLoadReportHeaders headers =
    Failed kNotFound "no ORCA data sent from the backend".
Proof.
  rewrite formats_present_count, parseOrcaLoadReportHeaders_lookups.
  unfold present. cbv zeta.
  destruct (Http.get headers kEndpointLoadMetricsHeader),
    (Http.get headers kEndpointLoadMetricsHeaderJson),
    (Http.get headers kEndpointLoadMetricsHeaderBin); simpl; intros; done.
Qed.

(** C2: when two or three of the keys have an entry in the header map, the
    parser returns InvalidArgument whatever the values are; no encoding is
    preferred to another. *)
Theorem more_than_one_format_is_invalid (headers : Http.HeaderMap) :
  2 ≤ formats_present headers →
  parseOrcaLoadReportHeaders headers =
    Failed kInvalidArgument "more than one ORCA header found".
Proof.
  rewrite formats_present_count, parseOrcaLoadReportHeaders_lookups.
  unfold present. cbv zeta.
  destruct (Http.get headers kEndpointLoadMetricsHeader),
    (Http.get headers kEndpointLoadMetricsHeaderJson),
    (Http.get headers kEndpointLoadMetricsHeaderBin); simpl; intros;
    done || lia.
Qed.

(** C10: when the JSON key (or the binary key) is the only one present,
    the parser decodes the value of its first occurrence alone; the result
    is the one for a header map holding just that occurrence. *)
Theorem json_and_binary_use_first_occurrence
    (headers : Http.HeaderMap) (first : Http.HeaderEntry)
    (others : list Http.HeaderEntry) :
  Http.get headers kEndpointLoadMetricsHeader = [] →
  (Http.get headers kEndpointLoadMetricsHeaderBin = [] →
   Http.get headers kEndpointLoadMetricsHeaderJson = first :: others →
   parseOrcaLoadReportHeaders headers =
     parseOrcaLoadReportHeaders
       (single_header kEndpointLoadMetricsHeaderJson (Http.value first))
   ∧ parseOrcaLoadReportHeaders headers =
       match JsonStringToMessage (Http.value first) default_OrcaLoadReport
               (mkJsonParseOptions true false) with
       | (OkStatus, report) => Value report
       | (Error code message, _) => Failed code message
       end)
  ∧
  (Http.get headers kEndpointLoadMetricsHeaderJson = [] →
   Http.get headers kEndpointLoadMetricsHeaderBin = first :: others →
   parseOrcaLoadReportHeaders headers =
     parseOrcaLoadReportHeaders
       (single_header kEndpointLoadMetricsHeaderBin (Http.value first))
   ∧ parseOrcaLoadReportHeaders headers =
       match ParseFromString (Base64_decode (Http.value first))
               default_OrcaLoadReport with
       | (true, report) => Value report
       | (false, _) =>
           Failed kInvalidArgument
             (StrCat ["unable to parse binaryheader to OrcaLoadReport: ";
                      Http.value first])
       end).
Proof.
  intros Hnative. split; intros Hnone Hsome.
  - rewrite !parseOrcaLoadReportHeaders_lookups. cbv zeta.
    rewrite Hnative, Hnone, Hsome, get_single_same.
    rewrite !get_single_other by (discriminate).
    done.
  - rewrite !parseOrcaLoadReportHeaders_lookups. cbv zeta.
    rewrite Hnative, Hnone, Hsome, get_single_same.
    rewrite !get_single_other by (discriminate).
    unfold parseBinary. cbn [Http.value].
    destruct (ParseFromString _ _) as [[|] report]; done.
Qed.

End Dispatch.

(** ** The metric assigner *)

Lemma length_append (s t : string) :
  String.length (s +:+ t) = String.length s + String.length t.
Proof.
  induction s as [|c s IH]; [done |]. rewrite append_cons. simpl. by rewrite IH.
Qed.

Lemma starts_with_append (prefix rest : string) :
  string_view.starts_with (prefix +:+ rest) prefix = true.
Proof.
  induction prefix as [|p prefix IH]; [reflexivity |].
  rewrite append_cons. simpl. by rewrite Ascii.eqb_refl, IH.
Qed.

Lemma starts_with_inv (s prefix : string) :
  string_view.starts_with s prefix = true → ∃ rest, s = prefix +:+ rest.
Proof.
  revert s. induction prefix as [|p prefix IH]; intros s; simpl.
  - intros _. by exists s.
  - destruct s as [|a s]; [done |].
    intros [Ha Hs]%andb_prop. apply Ascii.eqb_eq in Ha as ->.
    destruct (IH _ Hs) as [rest ->]. by exists rest.
Qed.

(** The [substr] of the named-metric route stays in range and yields the
    text after the prefix. *)
Lemma find_dot_in_range (key : string) :
  let metric_name := "named_metrics." +:+ key in
  let pos := string_view.size_add (string_view.find metric_name ".") 1 in
  (pos <= string_view.size metric_name)%N ∧
  string_view.substr metric_name pos = key.
Proof.
  intros metric_name pos.
  assert (Hpos : pos = 14%N) by reflexivity.
  assert (Hsize : string_view.size metric_name
                  = (14 + N.of_nat (String.length key))%N).
  { unfold string_view.size, metric_name. rewrite length_append.
    change (String.length "named_metrics.") with 14. lia. }
  split; [lia |].
  unfold string_view.substr. rewrite Hsize, Hpos.
  destruct (N.leb_spec 14 (14 + N.of_nat (String.length key))); [done | lia].
Qed.


Lemma set_named_metrics_same (r : OrcaLoadReport) :
  set_named_metrics (named_metrics r) r = r.
Proof. by destruct r. Qed.

Lemma tryCopyNamedMetricToOrcaLoadReport_cases
    (key : string) (value : double) (r : OrcaLoadReport) :
  tryCopyNamedMetricToOrcaLoadReport key value r =
    if empty key then (InvalidArgumentError "named metric key is empty.", r)
    else match named_metrics r !! key with
         | Some _ =>
             (AlreadyExistsError
                (StrCat [kEndpointLoadMetricsHeader;
                         " contains duplicate named metric: "; key]), r)
         | None =>
             (OkStatus, set_named_metrics (<[key := value]> (named_metrics r)) r)
         end.
Proof.
  unfold tryCopyNamedMetricToOrcaLoadReport, try_emplace.
  destruct (empty key); [done |].
  destruct (named_metrics r !! key); simpl; [|done].
  by rewrite set_named_metrics_same.
Qed.

Section Assigner.
Context `{Collaborators}.

Lemma tryCopyMetricToOrcaLoadReport_unparsable
    (metric_name metric_value : string) (r : OrcaLoadReport) :
  empty metric_name = false →
  empty metric_value = false →
  safe_strtod metric_value = None →
  tryCopyMetricToOrcaLoadReport metric_name metric_value r =
    (InvalidArgumentError
       (StrCat ["unable to parse custom backend load metric value({}): ";
                metric_name; metric_value]), r).
Proof.
  intros Hname Hvalue Hparse. unfold tryCopyMetricToOrcaLoadReport.
  by rewrite Hname, Hvalue, Hparse.
Qed.

(** A fixed field takes whatever value the numeric parser returns: the
    assigner looks at no property of the number. *)
Lemma tryCopyMetricToOrcaLoadReport_fixed
    (metric_name metric_value : string) (value : double) (r : OrcaLoadReport) :
  metric_name ∈ fixed_field_names →
  empty metric_value = false →
  safe_strtod metric_value = Some value →
  ∃ r', tryCopyMetricToOrcaLoadReport metric_name metric_value r = (OkStatus, r')
        ∧ field_of metric_name r' = Some value
        ∧ named_metrics r' = named_metrics r.
Proof.
  intros Hname Hvalue Hparse. unfold tryCopyMetricToOrcaLoadReport.
  rewrite Hvalue, Hparse. unfold fixed_field_names in Hname.
  repeat (apply elem_of_cons in Hname as [-> | Hname]);
    [.. | by apply elem_of_nil in Hname];
    (eexists; split; [reflexivity | done]).
Qed.

(** An error of the assigner leaves the report as it was. *)
Lemma tryCopyMetricToOrcaLoadReport_error
    (metric_name metric_value : string) (r r' : OrcaLoadReport)
    (code : StatusCode) (message : string) :
  tryCopyMetricToOrcaLoadReport metric_name metric_value r
    = (Error code message, r') →
  r' = r.
Proof.
  unfold tryCopyMetricToOrcaLoadReport.
  destruct (empty metric_name); [by intros [= _ _ <-] |].
  destruct (empty metric_value); [by intros [= _ _ <-] |].
  destruct (safe_strtod metric_value) as [value|]; [|by intros [= _ _ <-]].
  destruct (string_view.starts_with _ _).
  - rewrite tryCopyNamedMetricToOrcaLoadReport_cases.
    destruct (empty _); [by intros [= _ _ <-] |].
    destruct (_ !! _); [by intros [= _ _ <-] | done].
  - repeat case_decide; try done. by intros [= _ _ <-].
Qed.


(** C7: a name without the prefix [named_metrics.] that is none of the five
    fixed field names is answered with InvalidArgument and the report is left
    as it was; for a non-empty name with a value-string that parses, the
    message is the one of an unsupported metric name. *)
Theorem unsupported_metric_name_is_invalid
    (metric_name metric_value : string) (r : OrcaLoadReport) :
  string_view.starts_with metric_name "named_metrics." = false →
  metric_name ∉ fixed_field_names →
  ∃ message,
    tryCopyMetricToOrcaLoadReport metric_name metric_value r
      = (InvalidArgumentError message, r)
    ∧ (empty metric_name = false → empty metric_value = false →
       is_Some (safe_strtod metric_value) →
       message = StrCat ["unsupported metric name: "; metric_name]).
Proof.
  intros Hprefix Hname. unfold tryCopyMetricToOrcaLoadReport.
  destruct (empty metric_name); [by eexists |].
  destruct (empty metric_value); [by eexists |].
  destruct (safe_strtod metric_value) as [value|].
  2: { eexists. split; [done |]. by intros _ _ [? ?]. }
  rewrite Hprefix.
  repeat case_decide;
    try (exfalso; apply Hname; subst metric_name; unfold fixed_field_names;
         set_solver).
  by eexists.
Qed.

End Assigner.

(** ** Tokens of the plain-text header *)

Lemma StrSplit_not_nil (s : string) (c : ascii) : StrSplit s c ≠ [].
Proof.
  destruct s as [|a s]; simpl; [done |].
  destruct (Ascii.eqb a c); [done |]. by destruct (StrSplit s c).
Qed.

Lemma join_cons (p q : string) (qs : list string) (c : ascii) :
  join (p :: q :: qs) c = p +:+ String c (join (q :: qs) c).
Proof. reflexivity. Qed.

Lemma join_StrSplit (s : string) (c : ascii) : join (StrSplit s c) c = s.
Proof.
  induction s as [|a s IH]; [done |]. simpl.
  pose proof (StrSplit_not_nil s c) as Hne.
  destruct (Ascii.eqb a c) eqn:Hac.
  - apply Ascii.eqb_eq in Hac as ->.
    destruct (StrSplit s c) as [|p ps]; [done |].
    by rewrite join_cons, IH.
  - destruct (StrSplit s c) as [|p ps]; [done |].
    destruct ps as [|q qs]; [simpl in *; by rewrite IH |].
    rewrite join_cons in *. by rewrite append_cons, IH.
Qed.

Lemma StrSplit_pieces_clean (s : string) (c : ascii) :
  Forall (λ p, contains p c = false) (StrSplit s c).
Proof.
  induction s as [|a s IH]; simpl; [by repeat constructor |].
  destruct (Ascii.eqb a c) eqn:Hac; [by constructor |].
  destruct (StrSplit s c) as [|p ps]; [by repeat (constructor; simpl; rewrite ?Hac) |].
  inversion_clear IH as [|? ? Hp Hps]. constructor; [|done].
  simpl. by rewrite Hac.
Qed.

Lemma StripTrailing_idempotent (s : string) :
  StripTrailingAsciiWhitespace (StripTrailingAsciiWhitespace s)
  = StripTrailingAsciiWhitespace s.
Proof.
  induction s as [|a s IH]; [done |]. simpl.
  destruct (ascii_isspace a && empty (StripTrailingAsciiWhitespace s)) eqn:Hd;
    [done |].
  simpl. by rewrite IH, Hd.
Qed.

Lemma StripLeading_head (s : string) :
  match StripLeadingAsciiWhitespace s with
  | EmptyString => True
  | String a _ => ascii_isspace a = false
  end.
Proof.
  induction s as [|a s IH]; simpl; [done |].
  by destruct (ascii_isspace a) eqn:Ha.
Qed.

Lemma StripAsciiWhitespace_idempotent (s : string) :
  StripAsciiWhitespace (StripAsciiWhitespace s) = StripAsciiWhitespace s.
Proof.
  unfold StripAsciiWhitespace.
  pose proof (StripLeading_head s) as Hhead.
  destruct (StripLeadingAsciiWhitespace s) as [|a t]; [done |].
  simpl. rewrite Hhead. simpl. rewrite Hhead. simpl.
  by rewrite StripTrailing_idempotent, Hhead.
Qed.

Lemma StripLeading_clean (s : string) (c : ascii) :
  contains s c = false → contains (StripLeadingAsciiWhitespace s) c = false.
Proof.
  induction s as [|a s IH]; simpl; [done |].
  intros [Ha Hs]%orb_false_elim.
  destruct (ascii_isspace a); [by apply IH |]. simpl. by rewrite Ha, Hs.
Qed.

Lemma StripTrailing_clean (s : string) (c : ascii) :
  contains s c = false → contains (StripTrailingAsciiWhitespace s) c = false.
Proof.
  induction s as [|a s IH]; simpl; [done |].
  intros [Ha Hs]%orb_false_elim.
  destruct (ascii_isspace a && empty _); [done |]. simpl. by rewrite Ha, IH.
Qed.

Lemma StripAsciiWhitespace_clean (s : string) (c : ascii) :
  contains s c = false → contains (StripAsciiWhitespace s) c = false.
Proof.
  intros Hs. by apply StripTrailing_clean, StripLeading_clean.
Qed.

Lemma collectTokens_filter (pieces values : list string) :
  Http.collectTokens pieces values =
    values ++ filter (λ t, empty t = false) (StripAsciiWhitespace <$> pieces).
Proof.
  revert values. induction pieces as [|p pieces IH]; intros values;
    cbn [Http.collectTokens].
  - by rewrite fmap_nil, filter_nil, app_nil_r.
  - rewrite fmap_cons, filter_cons.
    destruct (empty (StripAsciiWhitespace p)) eqn:Hp; rewrite IH.
    + by rewrite decide_False.
    + rewrite decide_True by done. by rewrite <- app_assoc.
Qed.

Lemma HeaderUtility_parseCommaDelimitedHeader_filter (header_value : string) :
  Http.HeaderUtility_parseCommaDelimitedHeader header_value =
    filter (λ t, empty t = false)
      (StripAsciiWhitespace <$> StrSplit header_value ",").
Proof. apply collectTokens_filter. Qed.

Lemma HeaderUtility_tokens_clean (header_value : string) :
  Forall (λ token, token ≠ ""
                   ∧ StripAsciiWhitespace token = token
                   ∧ contains token "," = false)
    (Http.HeaderUtility_parseCommaDelimitedHeader header_value).
Proof.
  rewrite HeaderUtility_parseCommaDelimitedHeader_filter.
  apply Forall_forall. intros token [Hne Hin]%list_elem_of_filter.
  apply list_elem_of_fmap in Hin as (piece & -> & Hpiece).
  split; [by apply empty_false |].
  split; [apply StripAsciiWhitespace_idempotent |].
  apply StripAsciiWhitespace_clean.
  pose proof (StrSplit_pieces_clean header_value ",") as Hclean.
  rewrite Forall_forall in Hclean. by apply Hclean.
Qed.

Lemma parseCommaDelimitedHeader_loop_concat
    (entry : Http.GetResult) (values : list string) :
  parseCommaDelimitedHeader_loop entry values =
    values ++ concat ((λ e, Http.HeaderUtility_parseCommaDelimitedHeader
                              (Http.value e)) <$> entry).
Proof.
  revert values. induction entry as [|e entry IH]; intros values; simpl.
  - by rewrite app_nil_r.
  - by rewrite IH, <- app_assoc.
Qed.

Lemma parseCommaDelimitedHeader_concat (entry : Http.GetResult) :
  parseCommaDelimitedHeader entry =
    concat ((λ e, Http.HeaderUtility_parseCommaDelimitedHeader (Http.value e))
            <$> entry).
Proof. apply parseCommaDelimitedHeader_loop_concat. Qed.

(** C9: the plain-text decoder splits the value of every occurrence on
    commas, trims each piece and drops the empty ones, and works on the
    tokens of all occurrences as one sequence, those of an earlier
    occurrence before those of a later one. *)
Theorem comma_tokens_are_flattened_in_order
    (entry1 entry2 : Http.GetResult) :
  parseCommaDelimitedHeader (entry1 ++ entry2)
    = parseCommaDelimitedHeader entry1 ++ parseCommaDelimitedHeader entry2
  ∧ parseCommaDelimitedHeader entry1
      = concat ((λ e, filter (λ t, empty t = false)
                        (StripAsciiWhitespace <$> StrSplit (Http.value e) ","))
                <$> entry1)
  ∧ Forall (λ e, join (StrSplit (Http.value e) ",") "," = Http.value e
                 ∧ Forall (λ p, contains p "," = false)
                     (StrSplit (Http.value e) ",")) entry1
  ∧ Forall (λ token, token ≠ ""
                     ∧ StripAsciiWhitespace token = token
                     ∧ contains token "," = false)
      (parseCommaDelimitedHeader entry1)
  ∧ ∀ (collaborators : Collaborators) (r : OrcaLoadReport),
      entry1 ≠ [] →
      tryParseNativeHttpEncoded entry1 r
        = tryParseNativeHttpEncoded_loop (parseCommaDelimitedHeader entry1) ∅ r.
Proof.
  split; [|split; [|split; [|split]]].
  - rewrite !parseCommaDelimitedHeader_concat, fmap_app. apply concat_app.
  - rewrite parseCommaDelimitedHeader_concat. f_equal.
    apply list_fmap_ext. intros _ e _.
    apply HeaderUtility_parseCommaDelimitedHeader_filter.
  - apply Forall_forall. intros e _.
    split; [apply join_StrSplit | apply StrSplit_pieces_clean].
  - rewrite parseCommaDelimitedHeader_concat.
    induction entry1 as [|e entry IH]; simpl; [constructor |].
    apply Forall_app. split; [apply HeaderUtility_tokens_clean | apply IH].
  - intros collaborators r Hne. unfold tryParseNativeHttpEncoded.
    by destruct entry1.
Qed.

(** ** The plain-text decoder *)

Section Decoder.
Context `{Collaborators}.

Lemma tryParseNativeHttpEncoded_loop_seen
    (token : string) (tokens : list string) (metric_names : gset string)
    (r : OrcaLoadReport) :
  metric_name_of token ∈ metric_names →
  tryParseNativeHttpEncoded_loop (token :: tokens) metric_names r =
    (AlreadyExistsError
       (StrCat [kEndpointLoadMetricsHeader; " contains duplicate metric: ";
                metric_name_of token]), r).
Proof.
  intros Hseen. cbn [tryParseNativeHttpEncoded_loop]. cbv zeta.
  by rewrite decide_True.
Qed.

Lemma tryParseNativeHttpEncoded_loop_fresh
    (token : string) (tokens : list string) (metric_names : gset string)
    (r : OrcaLoadReport) :
  metric_name_of token ∉ metric_names →
  tryParseNativeHttpEncoded_loop (token :: tokens) metric_names r =
    match tryCopyMetricToOrcaLoadReport (metric_name_of token)
            (metric_value_of token) r with
    | (OkStatus, r') =>
        tryParseNativeHttpEncoded_loop tokens
          ({[metric_name_of token]} ∪ metric_names) r'
    | (Error code message, r') => (Error code message, r')
    end.
Proof.
  intros Hfresh. cbn [tryParseNativeHttpEncoded_loop]. cbv zeta.
  by rewrite decide_False.
Qed.

(** Once the tokens [pre] have been assigned, the loop goes on with their
    names in the set. *)
Lemma tryParseNativeHttpEncoded_loop_app
    (pre tokens : list string) (metric_names : gset string)
    (r r' : OrcaLoadReport) :
  tryParseNativeHttpEncoded_loop pre metric_names r = (OkStatus, r') →
  tryParseNativeHttpEncoded_loop (pre ++ tokens) metric_names r =
    tryParseNativeHttpEncoded_loop tokens
      (list_to_set (metric_name_of <$> pre) ∪ metric_names) r'.
Proof.
  revert metric_names r.
  induction pre as [|token pre IH]; intros metric_names r.
  - intros [= <-]. simpl. f_equal. set_solver.
  - rewrite <- app_comm_cons.
    destruct (decide (metric_name_of token ∈ metric_names)) as [Hseen|Hfresh].
    { by rewrite tryParseNativeHttpEncoded_loop_seen. }
    rewrite !tryParseNativeHttpEncoded_loop_fresh by done.
    destruct (tryCopyMetricToOrcaLoadReport _ _ r) as [[|code message] r1];
      [|done].
    intros Hpre. rewrite (IH _ _ Hpre). f_equal.
    rewrite fmap_cons, list_to_set_cons. set_solver.
Qed.

(** The first error ends the loop. *)
Lemma tryParseNativeHttpEncoded_loop_error
    (pre tokens : list string) (metric_names : gset string)
    (r r' : OrcaLoadReport) (code : StatusCode) (message : string) :
  tryParseNativeHttpEncoded_loop pre metric_names r = (Error code message, r') →
  tryParseNativeHttpEncoded_loop (pre ++ tokens) metric_names r
    = (Error code message, r').
Proof.
  revert metric_names r.
  induction pre as [|token pre IH]; intros metric_names r; [done |].
  rewrite <- app_comm_cons.
  destruct (decide (metric_name_of token ∈ metric_names)) as [Hseen|Hfresh].
  { by rewrite !tryParseNativeHttpEncoded_loop_seen. }
  rewrite !tryParseNativeHttpEncoded_loop_fresh by done.
  destruct (tryCopyMetricToOrcaLoadReport _ _ r) as [[|code1 message1] r1];
    [apply IH | done].
Qed.

(** C3 (amended): when the name of a token has already occurred among the
    tokens before it, the decoding never succeeds; and when all the tokens
    before it have been assigned, the decoding fails at that token with
    AlreadyExists, the message naming the header key and the metric, and the
    report is the one the earlier tokens left, with nothing assigned from
    the repeated occurrence. (When an earlier token fails, its error is the
    one returned.) *)
Theorem repeated_metric_name_is_rejected
    (header : Http.GetResult) (pre post : list string) (token : string)
    (r : OrcaLoadReport) :
  header ≠ [] →
  parseCommaDelimitedHeader header = pre ++ token :: post →
  metric_name_of token ∈ (metric_name_of <$> pre) →
  ok (tryParseNativeHttpEncoded header r).1 = false
  ∧ ∀ r', tryParseNativeHttpEncoded_loop pre ∅ r = (OkStatus, r') →
      tryParseNativeHttpEncoded header r =
        (AlreadyExistsError
           (StrCat [kEndpointLoadMetricsHeader; " contains duplicate metric: ";
                    metric_name_of token]), r').
Proof.
  intros Hne Htokens Hdup.
  assert (Hrun : tryParseNativeHttpEncoded header r
                 = tryParseNativeHttpEncoded_loop (pre ++ token :: post) ∅ r).
  { unfold tryParseNativeHttpEncoded. rewrite Htokens. by destruct header. }
  rewrite Hrun. split.
  - destruct (tryParseNativeHttpEncoded_loop pre ∅ r) as [[|code message] r1]
      eqn:Hpre.
    + rewrite (tryParseNativeHttpEncoded_loop_app _ _ _ _ _ Hpre).
      rewrite tryParseNativeHttpEncoded_loop_seen; [done |].
      apply elem_of_union_l, elem_of_list_to_set, Hdup.
    + by rewrite (tryParseNativeHttpEncoded_loop_error _ _ _ _ _ _ _ Hpre).
  - intros r' Hpre.
    rewrite (tryParseNativeHttpEncoded_loop_app _ _ _ _ _ Hpre).
    apply tryParseNativeHttpEncoded_loop_seen.
    apply elem_of_union_l, elem_of_list_to_set, Hdup.
Qed.

Lemma tryCopyMetricToOrcaLoadReport_cpu
    (metric_value : string) (value : double) (r : OrcaLoadReport) :
  empty metric_value = false →
  safe_strtod metric_value = Some value →
  tryCopyMetricToOrcaLoadReport "cpu_utilization" metric_value r
    = (OkStatus, set_cpu_utilization value r).
Proof.
  intros Hvalue Hparse. unfold tryCopyMetricToOrcaLoadReport.
  by rewrite Hvalue, Hparse.
Qed.

Lemma tryCopyMetricToOrcaLoadReport_mem
    (metric_value : string) (value : double) (r : OrcaLoadReport) :
  empty metric_value = false →
  safe_strtod metric_value = Some value →
  tryCopyMetricToOrcaLoadReport "mem_utilization" metric_value r
    = (OkStatus, set_mem_utilization value r).
Proof.
  intros Hvalue Hparse. unfold tryCopyMetricToOrcaLoadReport.
  by rewrite Hvalue, Hparse.
Qed.

(** C8: with a numeric parser that reads 0.5 and 0.7 as the binary64 values
    nearest to them, the header value
    [cpu_utilization:0.5,mem_utilization:0.7] decodes to the report with these
    two fields set, the three other fields zero and no named metric. *)
Theorem cpu_and_mem_utilization_decoded :
  safe_strtod "0.5" = Some binary64.d0_5 →
  safe_strtod "0.7" = Some binary64.d0_7 →
  parseOrcaLoadReportHeaders
    (single_header kEndpointLoadMetricsHeader
       "cpu_utilization:0.5,mem_utilization:0.7")
  = Value (mkOrcaLoadReport binary64.d0_5 binary64.d0_7 binary64.zero
             binary64.zero binary64.zero ∅).
Proof.
  intros Hcpu Hmem.
  rewrite parseOrcaLoadReportHeaders_lookups. cbv zeta.
  rewrite get_single_same, !get_single_other by discriminate.
  unfold tryParseNativeHttpEncoded. cbn [Http.is_empty].
  change (parseCommaDelimitedHeader _)
    with ["cpu_utilization:0.5"; "mem_utilization:0.7"].
  rewrite tryParseNativeHttpEncoded_loop_fresh by set_solver.
  change (metric_name_of "cpu_utilization:0.5") with "cpu_utilization".
  change (metric_value_of "cpu_utilization:0.5") with "0.5".
  rewrite (tryCopyMetricToOrcaLoadReport_cpu "0.5" _ _ eq_refl Hcpu).
  rewrite tryParseNativeHttpEncoded_loop_fresh.
  2: { change (metric_name_of "mem_utilization:0.7") with "mem_utilization".
       intros Hin. apply elem_of_union in Hin as [Hin | Hin]; [|set_solver].
       by apply elem_of_singleton in Hin. }
  change (metric_name_of "mem_utilization:0.7") with "mem_utilization".
  change (metric_value_of "mem_utilization:0.7") with "0.7".
  rewrite (tryCopyMetricToOrcaLoadReport_mem "0.7" _ _ eq_refl Hmem).
  reflexivity.
Qed.

End Decoder.

(** ** The numeric parser *)

Lemma all_chars_append (P : ascii → bool) (s t : string) :
  all_chars P (s +:+ t) = all_chars P s && all_chars P t.
Proof.
  induction s as [|c s IH]; [done |].
  rewrite append_cons. simpl. by rewrite IH, andb_assoc.
Qed.

Lemma consumes_nothing (s : string) : consumes s s.
Proof. by exists "". Qed.

Lemma consumes_char (c : ascii) (s rest : string) :
  numeric_char c = true → consumes s rest → consumes (String c s) rest.
Proof.
  intros Hc (head & -> & Hhead). exists (String c head).
  split; [done |]. simpl. by rewrite Hc.
Qed.

Lemma consumes_trans (s t rest : string) :
  consumes s t → consumes t rest → consumes s rest.
Proof.
  intros (h1 & -> & H1) (h2 & -> & H2). exists (h1 +:+ h2).
  split; [by rewrite append_assoc |]. by rewrite all_chars_append, H1, H2.
Qed.

Lemma read_digits_consumes (s : string) (acc count : Z) :
  consumes s (numbers.read_digits s acc count).2.
Proof.
  revert acc count. induction s as [|c s IH]; intros acc count; simpl.
  - apply consumes_nothing.
  - destruct (numbers.digit_value c) as [d|] eqn:Hd.
    + apply consumes_char; [|apply IH]. unfold numeric_char. by rewrite Hd.
    + apply consumes_nothing.
Qed.

Lemma read_sign_consumes (s : string) : consumes s (numbers.read_sign s).2.
Proof.
  destruct s as [|c s]; simpl; [apply consumes_nothing |].
  destruct (Ascii.eqb c "-") eqn:Hminus.
  { apply consumes_char; [|apply consumes_nothing].
    apply Ascii.eqb_eq in Hminus as ->. reflexivity. }
  destruct (Ascii.eqb c "+") eqn:Hplus.
  { apply consumes_char; [|apply consumes_nothing].
    apply Ascii.eqb_eq in Hplus as ->. reflexivity. }
  apply consumes_nothing.
Qed.

Lemma read_fraction_consumes (s : string) (int_part : Z) :
  consumes s (numbers.read_fraction s int_part).2.
Proof.
  destruct s as [|c s]; simpl; [apply consumes_nothing |].
  destruct (Ascii.eqb c ".") eqn:Hpoint; [|apply consumes_nothing].
  apply consumes_char; [|apply read_digits_consumes].
  apply Ascii.eqb_eq in Hpoint as ->. reflexivity.
Qed.

Lemma read_exponent_consumes (s : string) :
  consumes s (numbers.read_exponent s).2.
Proof.
  destruct s as [|c s]; simpl; [apply consumes_nothing |].
  destruct (Ascii.eqb c "e" || Ascii.eqb c "E") eqn:He;
    [|apply consumes_nothing].
  pose proof (read_sign_consumes s) as Hsign.
  destruct (numbers.read_sign s) as [eneg s1]. simpl in Hsign.
  pose proof (read_digits_consumes s1 0 0) as Hdigits.
  destruct (numbers.read_digits s1 0 0) as [[e n] s2]. simpl in Hdigits.
  destruct (n =? 0)%Z; simpl; [apply consumes_nothing |].
  apply consumes_char; [|by apply (consumes_trans _ s1)].
  unfold numeric_char. destruct (numbers.digit_value c); [done |].
  apply orb_true_iff in He as [-> | ->]; by rewrite ?orb_true_r.
Qed.

Lemma read_number_consumes (s rest : string) (literal : numbers.decimal) :
  numbers.read_number s = Some (literal, rest) → consumes s rest.
Proof.
  unfold numbers.read_number.
  pose proof (read_sign_consumes s) as Hsign.
  destruct (numbers.read_sign s) as [neg s1]. simpl in Hsign.
  pose proof (read_digits_consumes s1 0 0) as Hint.
  destruct (numbers.read_digits s1 0 0) as [[int_part n1] s2]. simpl in Hint.
  pose proof (read_fraction_consumes s2 int_part) as Hfrac.
  destruct (numbers.read_fraction s2 int_part) as [[m n2] s3]. simpl in Hfrac.
  destruct (n1 + n2 =? 0)%Z; [done |].
  pose proof (read_exponent_consumes s3) as Hexp.
  destruct (numbers.read_exponent s3) as [e s4]. simpl in Hexp.
  intros [= _ <-].
  eapply consumes_trans; [exact Hsign |].
  eapply consumes_trans; [exact Hint |].
  eapply consumes_trans; [exact Hfrac | exact Hexp].
Qed.

(** An accepted text is made of literal characters from end to end: no
    whitespace, no word such as inf or nan, nothing after the number. *)
Lemma safe_strtod_strict (s : string) (value : double) :
  numbers.safe_strtod s = Some value → all_chars numeric_char s = true.
Proof.
  unfold numbers.safe_strtod.
  destruct (numbers.read_number s) as [[literal rest]|] eqn:Hread; [|done].
  destruct rest; [|done]. intros _.
  destruct (read_number_consumes _ _ _ Hread) as (head & -> & Hhead).
  by rewrite append_empty_r.
Qed.

Lemma safe_strtod_accepts (s : string) (value : double) :
  numbers.safe_strtod s = Some value ↔
  ∃ literal, numbers.read_number s = Some (literal, "")
             ∧ numbers.to_double literal = value
             ∧ binary64.is_finite value = true.
Proof.
  unfold numbers.safe_strtod. split.
  - destruct (numbers.read_number s) as [[literal [|c rest]]|]; [|done..].
    cbv zeta.
    destruct (binary64.is_finite (numbers.to_double literal)) eqn:Hfin;
      [|done].
    intros [= <-]. by exists literal.
  - intros (literal & -> & <- & Hfin). cbv zeta. by rewrite Hfin.
Qed.

(** ** Binary64 values the numeric parser reaches *)

Section ExactRounding.
Variables prec emax : Z.

Lemma digits2_pos_size (p : positive) : digits2_pos p = Pos.size p.
Proof. induction p as [p IH|p IH|]; simpl; by rewrite ?IH. Qed.

Lemma Zdigits2_log2 (n : Z) : (0 < n)%Z → Zdigits2 n = (Z.log2 n + 1)%Z.
Proof.
  destruct n as [|p|p]; [lia | | lia]. intros _. simpl.
  rewrite digits2_pos_size. destruct p; simpl; lia.
Qed.

Lemma Zdigits2_mul_pow2 (m : positive) (j : Z) :
  (0 ≤ j)%Z → Zdigits2 (Zpos m * 2 ^ j) = (Zdigits2 (Zpos m) + j)%Z.
Proof.
  intros Hj. assert (0 < 2 ^ j)%Z by (apply Z.pow_pos_nonneg; lia).
  rewrite !Zdigits2_log2 by lia. rewrite Z.log2_mul_pow2 by lia. lia.
Qed.

Lemma fexp_monotone (a b : Z) : (a ≤ b)%Z → (fexp prec emax a ≤ fexp prec emax b)%Z.
Proof. unfold fexp. lia. Qed.

Lemma bounded_inv (m : positive) (e : Z) :
  bounded prec emax m e = true →
  fexp prec emax (Zdigits2 (Zpos m) + e) = e ∧ (e ≤ emax - prec)%Z.
Proof.
  unfold bounded, canonical_mantissa.
  intros [Hc He]%andb_prop. split; [by apply Z.eqb_eq | by apply Z.leb_le].
Qed.

Lemma shr_1_double (x : Z) :
  (0 < x)%Z →
  shr_1 (Build_shr_record (2 * x) false false) = Build_shr_record x false false.
Proof. destruct x; [lia | done | lia]. Qed.

Lemma iter_shr_1_pow2 (p : positive) (x : Z) :
  (0 < x)%Z →
  SpecFloat.iter_pos shr_1 p (Build_shr_record (x * 2 ^ Zpos p) false false)
  = Build_shr_record x false false.
Proof.
  revert x. induction p as [p IH|p IH|]; intros x Hx.
  - assert (0 < 2 ^ Zpos p)%Z by (apply Z.pow_pos_nonneg; lia).
    replace (x * 2 ^ Zpos p~1)%Z with (2 * (x * 2 ^ Zpos p * 2 ^ Zpos p))%Z.
    2: { replace (2 ^ Zpos p~1)%Z with (2 * (2 ^ Zpos p * 2 ^ Zpos p))%Z; [ring |].
         rewrite <- Z.pow_add_r, <- (Z.pow_succ_r 2) by lia. f_equal. lia. }
    cbn [SpecFloat.iter_pos]. rewrite shr_1_double by nia.
    rewrite IH by nia. by apply IH.
  - assert (0 < 2 ^ Zpos p)%Z by (apply Z.pow_pos_nonneg; lia).
    replace (x * 2 ^ Zpos p~0)%Z with (x * 2 ^ Zpos p * 2 ^ Zpos p)%Z.
    2: { replace (2 ^ Zpos p~0)%Z with (2 ^ Zpos p * 2 ^ Zpos p)%Z; [ring |].
         rewrite <- Z.pow_add_r by lia. f_equal. lia. }
    cbn [SpecFloat.iter_pos]. rewrite IH by nia. by apply IH.
  - cbn [SpecFloat.iter_pos]. replace (x * 2 ^ 1)%Z with (2 * x)%Z by lia.
    by apply shr_1_double.
Qed.

(** A mantissa and exponent that denote a representable number round to
    its canonical form. *)
Lemma binary_round_aux_exact (s : bool) (m : positive) (e j : Z) :
  bounded prec emax m e = true →
  (0 ≤ j)%Z →
  binary_round_aux prec emax s (Zpos m * 2 ^ j) (e - j) loc_Exact
  = S754_finite s m e.
Proof.
  intros [Hcanon Hmax]%bounded_inv Hj.
  unfold binary_round_aux, shr_fexp.
  rewrite Zdigits2_mul_pow2 by done.
  replace (Zdigits2 (Zpos m) + j + (e - j))%Z with (Zdigits2 (Zpos m) + e)%Z by lia.
  rewrite Hcanon. replace (e - (e - j))%Z with j by lia.
  assert (Hshr : shr (shr_record_of_loc (Zpos m * 2 ^ j) loc_Exact) (e - j) j
                 = (Build_shr_record (Zpos m) false false, e)).
  { destruct j as [|p|p]; [| |lia]; cbn [shr shr_record_of_loc].
    - by rewrite Z.mul_1_r, Z.sub_0_r.
    - rewrite iter_shr_1_pow2 by lia. f_equal. lia. }
  rewrite Hshr. cbn [shr_m loc_of_shr_record round_nearest_even].
  rewrite Hcanon, Z.sub_diag. cbn [shr shr_record_of_loc shr_m].
  by apply Z.leb_le in Hmax as ->.
Qed.

Lemma binary_round_exact (s : bool) (m M : positive) (e : Z) :
  bounded prec emax m e = true →
  (0 ≤ e)%Z →
  Zpos M = (Zpos m * 2 ^ e)%Z →
  binary_round prec emax s M 0 = S754_finite s m e.
Proof.
  intros Hb He HM. pose proof (bounded_inv _ _ Hb) as [Hcanon _].
  pose proof (binary_round_aux_exact s m e e Hb He) as Haux.
  rewrite Z.sub_diag, <- HM in Haux.
  unfold binary_round, shl_align.
  change (Zpos (digits2_pos M)) with (Zdigits2 (Zpos M)).
  rewrite HM, Zdigits2_mul_pow2, Z.add_0_r, Hcanon, Z.sub_0_r by done.
  by destruct e as [|p|p]; [| |lia].
Qed.

Lemma new_location_zero (d : Z) : new_location d 0 = loc_Exact.
Proof.
  unfold new_location, new_location_even, new_location_odd.
  by destruct (Z.even d).
Qed.

Lemma SFdiv_exact (s : bool) (m M D : positive) (k : Z) :
  bounded prec emax m (- k) = true →
  (0 < k)%Z →
  Zpos M = (Zpos m * 5 ^ k)%Z →
  Zpos D = (10 ^ k)%Z →
  SFdiv prec emax (S754_finite s M 0) (S754_finite false D 0)
  = S754_finite s m (- k).
Proof.
  intros Hb Hk HM HD. pose proof (bounded_inv _ _ Hb) as [Hcanon _].
  assert (H5 : (0 < 5 ^ k)%Z) by (apply Z.pow_pos_nonneg; lia).
  assert (H2 : (0 < 2 ^ k)%Z) by (apply Z.pow_pos_nonneg; lia).
  assert (H10 : (10 ^ k = 5 ^ k * 2 ^ k)%Z).
  { by rewrite <- Z.pow_mul_l. }
  unfold SFdiv, SFdiv_core_binary. rewrite xorb_false_r.
  set (e' := Z.min _ _).
  assert (He' : (e' ≤ - k)%Z).
  { unfold e'. etrans; [apply Z.le_min_l |].
    etrans; [|apply Z.eq_le_incl, Hcanon]. apply fexp_monotone.
    rewrite !Zdigits2_log2, HM, HD, H10 by lia.
    rewrite Z.log2_mul_pow2 by lia.
    pose proof (Z.log2_mul_above (Zpos m) (5 ^ k)). lia. }
  set (j := (- k - e')%Z).
  assert (Hshift :
    match (0 - 0 - e')%Z with
    | Zpos _ => Z.shiftl (Zpos M) (0 - 0 - e')
    | Z0 => Zpos M
    | Zneg _ => 0%Z
    end = (Zpos m * 2 ^ j * Zpos D)%Z).
  { assert (Hs : (0 - 0 - e' = j + k)%Z) by (unfold j; lia).
    rewrite Hs. destruct (j + k)%Z as [|p|p] eqn:Hjk; [lia | | lia].
    rewrite Z.shiftl_mul_pow2, <- Hjk, Z.pow_add_r, HM, HD, H10 by lia. ring. }
  rewrite Hshift.
  assert (Hdiv : Z.div_eucl (Zpos m * 2 ^ j * Zpos D) (Zpos D)
                 = ((Zpos m * 2 ^ j)%Z, 0%Z)).
  { pose proof (Z.div_mul (Zpos m * 2 ^ j) (Zpos D) ltac:(done)) as Hq.
    pose proof (Z.mod_mul (Zpos m * 2 ^ j) (Zpos D) ltac:(done)) as Hr.
    unfold Z.div, Z.modulo in Hq, Hr.
    destruct (Z.div_eucl _ _) as [q r]. by subst. }
  rewrite Hdiv, new_location_zero.
  replace e' with (- k - j)%Z by (unfold j; lia).
  apply binary_round_aux_exact; [done | unfold j; lia].
Qed.

End ExactRounding.

Lemma digit_value_of_digit (r : Z) :
  (0 ≤ r < 10)%Z → ∃ c, numbers.digit_value c = Some r.
Proof.
  intros Hr. exists (ascii_of_N (Z.to_N (r + 48))).
  unfold numbers.digit_value. rewrite N_ascii_embedding by lia.
  destruct (N.leb_spec 48 (Z.to_N (r + 48))); [|lia].
  destruct (N.leb_spec (Z.to_N (r + 48)) 57); [|lia].
  simpl. f_equal. lia.
Qed.

Lemma spells_exists (n : Z) : (0 ≤ n)%Z → ∃ ds, spells ds n.
Proof.
  revert n. apply (Zlt_0_ind (λ n, ∃ ds, spells ds n)). intros n IH Hn.
  destruct (Z_lt_le_dec n 10) as [Hsmall | Hbig].
  - destruct (digit_value_of_digit n) as [c Hc]; [lia |].
    exists (String c ""). split; [by exists c, ""; rewrite Hc |].
    exists 1%Z. split; [lia |]. intros rest count.
    rewrite append_cons, append_nil. simpl. by rewrite Hc.
  - destruct (IH (n / 10)%Z) as (ds & (c & ds' & -> & Hc) & len & Hlen & Hread).
    { split; [apply Z.div_pos; lia | apply Z.div_lt; lia]. }
    destruct (digit_value_of_digit (n mod 10)) as [d Hd].
    { apply Z.mod_pos_bound. lia. }
    exists (String c ds' +:+ String d ""). split; [by exists c, (ds' +:+ String d "") |].
    exists (len + 1)%Z. split; [lia |]. intros rest count.
    rewrite append_assoc. change (String d "" +:+ rest) with (String d rest).
    rewrite Hread. simpl. rewrite Hd.
    f_equal; [|lia]. pose proof (Z.div_mod n 10). lia.
Qed.

Lemma read_sign_digit (c : ascii) (s : string) :
  is_Some (numbers.digit_value c) →
  numbers.read_sign (String c s) = (false, String c s).
Proof.
  intros Hc. unfold numbers.read_sign.
  destruct (Ascii.eqb c "-") eqn:Hminus.
  { apply Ascii.eqb_eq in Hminus as ->. by destruct Hc. }
  destruct (Ascii.eqb c "+") eqn:Hplus; [|done].
  apply Ascii.eqb_eq in Hplus as ->. by destruct Hc.
Qed.

Lemma read_sign_spelled (s : bool) (ds rest : string) (n : Z) :
  spells ds n →
  numbers.read_sign ((if s then "-" else "") +:+ ds +:+ rest) = (s, ds +:+ rest).
Proof.
  intros [(c & ds' & -> & Hc) _]. destruct s; [done |].
  rewrite append_nil, append_cons. by apply read_sign_digit.
Qed.

Lemma read_number_integer (s : bool) (ds : string) (n : Z) :
  spells ds n →
  numbers.read_number ((if s then "-" else "") +:+ ds)
  = Some (numbers.mkDecimal s n 0, "").
Proof.
  intros Hds. pose proof (read_sign_spelled s ds "" n Hds) as Hsign.
  destruct Hds as [_ (len & Hlen & Hread)].
  rewrite append_empty_r in Hsign. unfold numbers.read_number.
  pose proof (Hread "" 0%Z) as Hn. rewrite append_empty_r in Hn.
  rewrite Hsign, Hn. simpl.
  destruct (Z.eqb_spec (0 + len + 0) 0); [lia | done].
Qed.

Lemma read_number_scaled (s : bool) (ds dk : string) (n k : Z) :
  spells ds n →
  spells dk k →
  numbers.read_number ((if s then "-" else "") +:+ ds +:+ "e-" +:+ dk)
  = Some (numbers.mkDecimal s n (- k), "").
Proof.
  intros Hds Hdk. pose proof (read_sign_spelled s ds ("e-" +:+ dk) n Hds) as Hsign.
  destruct Hds as [_ (len & Hlen & Hread)].
  destruct Hdk as [_ (lenk & Hlenk & Hreadk)].
  pose proof (Hreadk "" 0%Z) as Hk. rewrite append_empty_r in Hk.
  unfold numbers.read_number. rewrite Hsign, Hread.
  change ("e-" +:+ dk) with (String "e" (String "-" dk)).
  simpl. rewrite Hk. simpl.
  destruct (Z.eqb_spec (0 + len + 0) 0); [lia |].
  destruct (Z.eqb_spec (0 + lenk) 0); [lia |]. do 3 f_equal. lia.
Qed.

(** Every finite binary64 value is the value of some text that the numeric
    parser accepts. *)
Lemma safe_strtod_reaches (d : double) :
  binary64.is_finite d = true →
  valid_binary binary64.prec binary64.emax d = true →
  ∃ text, empty text = false ∧ numbers.safe_strtod text = Some d.
Proof.
  destruct d as [s | s | | s m e]; try done; intros _ Hvalid.
  - exists (if s then "-0" else "0"). by destruct s.
  - simpl in Hvalid. destruct (Z_lt_le_dec e 0) as [Hneg | Hpos].
    + set (k := (- e)%Z).
      assert (H5 : (0 < 5 ^ k)%Z) by (apply Z.pow_pos_nonneg; lia).
      destruct (spells_exists (Zpos m * 5 ^ k)) as [ds Hds]; [lia |].
      destruct (spells_exists k) as [dk Hdk]; [lia |].
      exists ((if s then "-" else "") +:+ ds +:+ "e-" +:+ dk).
      split.
      { destruct Hds as [(c & ds' & -> & _) _]. by destruct s. }
      unfold numbers.safe_strtod.
      rewrite (read_number_scaled s ds dk _ k Hds Hdk). cbv zeta.
      assert (Hd : numbers.to_double
                     (numbers.mkDecimal s (Zpos m * 5 ^ k) (- k))
                   = S754_finite s m e).
      { unfold numbers.to_double. cbn [numbers.digits numbers.exponent10 numbers.negative].
        destruct (Zpos m * 5 ^ k)%Z as [|M|M] eqn:HM; [lia | | lia].
        destruct (Z.leb_spec 0 (- k)); [lia |].
        replace e with (- k)%Z by (unfold k; lia).
        apply (SFdiv_exact _ _ s m M _ k); [| lia | done |].
        - by replace (- k)%Z with e by (unfold k; lia).
        - rewrite Z.opp_involutive, Z2Pos.id; [done |].
          apply Z.pow_pos_nonneg; lia. }
      by rewrite Hd.
    + assert (H2 : (0 < 2 ^ e)%Z) by (apply Z.pow_pos_nonneg; lia).
      destruct (spells_exists (Zpos m * 2 ^ e)) as [ds Hds]; [lia |].
      exists ((if s then "-" else "") +:+ ds).
      split.
      { destruct Hds as [(c & ds' & -> & _) _]. by destruct s. }
      unfold numbers.safe_strtod.
      rewrite (read_number_integer s ds _ Hds). cbv zeta.
      assert (Hd : numbers.to_double (numbers.mkDecimal s (Zpos m * 2 ^ e) 0)
                   = S754_finite s m e).
      { unfold numbers.to_double. cbn [numbers.digits numbers.exponent10 numbers.negative].
        destruct (Zpos m * 2 ^ e)%Z as [|M|M] eqn:HM; [lia | | lia].
        change (Z.to_pos (10 ^ 0)) with 1%positive. rewrite Pos.mul_1_r.
        change (0 <=? 0)%Z with true. cbv iota.
        by apply (binary_round_exact _ _ s m M e). }
      by rewrite Hd.
Qed.

(** C5: the value-string is handed whole to the numeric parser. With the
    parser of the design document, a value-string is accepted exactly when
    all of it is one decimal literal whose binary64 value is finite; a text
    with something left after the literal, or with a value that is not
    finite, is rejected. On rejection the assigner returns InvalidArgument
    with a message holding the metric name and the text; an accepted value
    is stored in a fixed field as it is, whatever its sign or size. Every
    finite binary64 value is accepted: some value-string parses to it, and
    the assigner stores it. *)
Theorem metric_value_is_parsed_strictly
    (metric_name metric_value : string) (r : OrcaLoadReport) :
  empty metric_name = false →
  empty metric_value = false →
  (∀ value,
     numbers.safe_strtod metric_value = Some value ↔
     ∃ literal, numbers.read_number metric_value = Some (literal, "")
                ∧ numbers.to_double literal = value
                ∧ binary64.is_finite value = true)
  ∧ (∀ value,
       numbers.safe_strtod metric_value = Some value →
       all_chars numeric_char metric_value = true)
  ∧ (numbers.safe_strtod metric_value = None →
     @tryCopyMetricToOrcaLoadReport strict_collaborators
       metric_name metric_value r =
       (InvalidArgumentError
          (StrCat ["unable to parse custom backend load metric value({}): ";
                   metric_name; metric_value]), r))
  ∧ (∀ value,
       numbers.safe_strtod metric_value = Some value →
       metric_name ∈ fixed_field_names →
       ∃ r', @tryCopyMetricToOrcaLoadReport strict_collaborators
               metric_name metric_value r = (OkStatus, r')
             ∧ field_of metric_name r' = Some value)
  ∧ (∀ value,
       binary64.is_finite value = true →
       valid_binary binary64.prec binary64.emax value = true →
       ∃ text,
         numbers.safe_strtod text = Some value
         ∧ (metric_name ∈ fixed_field_names →
            ∃ r', @tryCopyMetricToOrcaLoadReport strict_collaborators
                    metric_name text r = (OkStatus, r')
                  ∧ field_of metric_name r' = Some value)).
Proof.
  intros Hname Hvalue. split; [|split; [|split; [|split]]].
  - intros value. apply safe_strtod_accepts.
  - intros value. apply safe_strtod_strict.
  - intros Hparse.
    by apply (@tryCopyMetricToOrcaLoadReport_unparsable strict_collaborators).
  - intros value Hparse Hfixed.
    destruct (@tryCopyMetricToOrcaLoadReport_fixed strict_collaborators
                metric_name metric_value value r Hfixed Hvalue Hparse)
      as (r' & Hrun & Hfield & _).
    by exists r'.
  - intros value Hfinite Hvalid.
    destruct (safe_strtod_reaches value Hfinite Hvalid)
      as (text & Htext & Hparse).
    exists text. split; [done |]. intros Hfixed.
    destruct (@tryCopyMetricToOrcaLoadReport_fixed strict_collaborators
                metric_name text value r Hfixed Htext Hparse)
      as (r' & Hrun & Hfield & _).
    by exists r'.
Qed.

(** ** The statements on concrete inputs *)

Lemma metric_value_is_parsed_strictly_witness :
  numbers.safe_strtod "1e400" = None
  ∧ numbers.safe_strtod "0.5x" = None
  ∧ numbers.safe_strtod "-3.25"
    = Some (S754_finite true 7318349394477056 (-51))
  ∧ @tryCopyMetricToOrcaLoadReport strict_collaborators
      "cpu_utilization" "notanumber" default_OrcaLoadReport =
      (InvalidArgumentError
         "unable to parse custom backend load metric value({}): cpu_utilizationnotanumber",
       default_OrcaLoadReport)
  ∧ ∃ text,
      numbers.safe_strtod text
      = Some (S754_finite true 7318349394477056 (-51))
      ∧ ("cpu_utilization" ∈ fixed_field_names →
         ∃ r', @tryCopyMetricToOrcaLoadReport strict_collaborators
                 "cpu_utilization" text default_OrcaLoadReport = (OkStatus, r')
               ∧ field_of "cpu_utilization" r'
                 = Some (S754_finite true 7318349394477056 (-51))).
Proof.
  split; [vm_compute; reflexivity |].
  split; [vm_compute; reflexivity |].
  split; [vm_compute; reflexivity |].
  split.
  - apply (proj1 (proj2 (proj2
      (metric_value_is_parsed_strictly "cpu_utilization" "notanumber"
         default_OrcaLoadReport eq_refl eq_refl)))).
    vm_compute; reflexivity.
  - apply (proj2 (proj2 (proj2 (proj2
      (metric_value_is_parsed_strictly "cpu_utilization" "notanumber"
         default_OrcaLoadReport eq_refl eq_refl))))
      (S754_finite true 7318349394477056 (-51))); reflexivity.
Defined.

Lemma no_format_is_not_found_witness :
  formats_present (single_header "content-type" "text/plain") = 0
  ∧ @parseOrcaLoadReportHeaders strict_collaborators
      (single_header "content-type" "text/plain")
    = Failed kNotFound "no ORCA data sent from the backend".
Proof.
  split; [vm_compute; reflexivity |].
  apply (@no_format_is_not_found strict_collaborators).
  vm_compute; reflexivity.
Defined.

Lemma more_than_one_format_is_invalid_witness :
  formats_present
    [Http.mkHeaderEntry kEndpointLoadMetricsHeaderJson "{}";
     Http.mkHeaderEntry kEndpointLoadMetricsHeader "eps:1"] = 2
  ∧ @parseOrcaLoadReportHeaders strict_collaborators
      [Http.mkHeaderEntry kEndpointLoadMetricsHeaderJson "{}";
       Http.mkHeaderEntry kEndpointLoadMetricsHeader "eps:1"]
    = Failed kInvalidArgument "more than one ORCA header found".
Proof.
  split; [vm_compute; reflexivity |].
  apply (@more_than_one_format_is_invalid strict_collaborators).
  vm_compute. lia.
Defined.

Lemma json_and_binary_use_first_occurrence_witness :
  @parseOrcaLoadReportHeaders strict_collaborators
    [Http.mkHeaderEntry kEndpointLoadMetricsHeaderJson "{a}";
     Http.mkHeaderEntry "content-type" "text/plain";
     Http.mkHeaderEntry kEndpointLoadMetricsHeaderJson "{}"]
  = @parseOrcaLoadReportHeaders strict_collaborators
      (single_header kEndpointLoadMetricsHeaderJson "{a}")
  ∧ @parseOrcaLoadReportHeaders strict_collaborators
      [Http.mkHeaderEntry kEndpointLoadMetricsHeaderBin "";
       Http.mkHeaderEntry kEndpointLoadMetricsHeaderBin "@@"]
    = Value default_OrcaLoadReport.
Proof.
  split.
  - apply (proj1 (@json_and_binary_use_first_occurrence strict_collaborators
        [Http.mkHeaderEntry kEndpointLoadMetricsHeaderJson "{a}";
         Http.mkHeaderEntry "content-type" "text/plain";
         Http.mkHeaderEntry kEndpointLoadMetricsHeaderJson "{}"]
        (Http.mkHeaderEntry kEndpointLoadMetricsHeaderJson "{a}")
        [Http.mkHeaderEntry kEndpointLoadMetricsHeaderJson "{}"]
        eq_refl) eq_refl eq_refl).
  - apply (proj2 (proj2 (@json_and_binary_use_first_occurrence
        strict_collaborators
        [Http.mkHeaderEntry kEndpointLoadMetricsHeaderBin "";
         Http.mkHeaderEntry kEndpointLoadMetricsHeaderBin "@@"]
        (Http.mkHeaderEntry kEndpointLoadMetricsHeaderBin "")
        [Http.mkHeaderEntry kEndpointLoadMetricsHeaderBin "@@"]
        eq_refl) eq_refl eq_refl)).
Defined.


Lemma unsupported_metric_name_is_invalid_witness :
  ∃ message,
    @tryCopyMetricToOrcaLoadReport strict_collaborators
      "unknown_field" "1.0" default_OrcaLoadReport
      = (InvalidArgumentError message, default_OrcaLoadReport)
    ∧ (empty "unknown_field" = false → empty "1.0" = false →
       is_Some (numbers.safe_strtod "1.0") →
       message = StrCat ["unsupported metric name: "; "unknown_field"]).
Proof.
  apply (@unsupported_metric_name_is_invalid strict_collaborators
           "unknown_field" "1.0" default_OrcaLoadReport eq_refl).
  unfold fixed_field_names. intros Hin.
  repeat (apply elem_of_cons in Hin as [Hin | Hin]; [discriminate Hin |]).
  exact (proj1 (elem_of_nil _) Hin).
Defined.

Lemma cpu_and_mem_utilization_decoded_witness :
  numbers.safe_strtod "0.5" = Some binary64.d0_5
  ∧ numbers.safe_strtod "0.7" = Some binary64.d0_7
  ∧ @parseOrcaLoadReportHeaders strict_collaborators
      (single_header kEndpointLoadMetricsHeader
         "cpu_utilization:0.5,mem_utilization:0.7")
    = Value (mkOrcaLoadReport binary64.d0_5 binary64.d0_7 binary64.zero
               binary64.zero binary64.zero ∅).
Proof.
  split; [vm_compute; reflexivity |].
  split; [vm_compute; reflexivity |].
  apply (@cpu_and_mem_utilization_decoded strict_collaborators);
    vm_compute; reflexivity.
Defined.

Lemma comma_tokens_are_flattened_in_order_witness :
  parseCommaDelimitedHeader
    [Http.mkHeaderEntry kEndpointLoadMetricsHeader " eps:1 ,, rps_fractional:2";
     Http.mkHeaderEntry kEndpointLoadMetricsHeader "cpu_utilization:0.5 "]
  = ["eps:1"; "rps_fractional:2"; "cpu_utilization:0.5"]
  ∧ @tryParseNativeHttpEncoded strict_collaborators
      [Http.mkHeaderEntry kEndpointLoadMetricsHeader "eps:1"]
      default_OrcaLoadReport
    = @tryParseNativeHttpEncoded_loop strict_collaborators
        (parseCommaDelimitedHeader
           [Http.mkHeaderEntry kEndpointLoadMetricsHeader "eps:1"])
        ∅ default_OrcaLoadReport.
Proof.
  split; [vm_compute; reflexivity |].
  apply (comma_tokens_are_flattened_in_order
           [Http.mkHeaderEntry kEndpointLoadMetricsHeader "eps:1"] []).
  discriminate.
Defined.

Lemma repeated_metric_name_is_rejected_witness :
  parseCommaDelimitedHeader
    (single_header kEndpointLoadMetricsHeader
       "cpu_utilization:0.1,cpu_utilization:0.2")
  = ["cpu_utilization:0.1"] ++ "cpu_utilization:0.2" :: []
  ∧ @tryParseNativeHttpEncoded strict_collaborators
      (single_header kEndpointLoadMetricsHeader
         "cpu_utilization:0.1,cpu_utilization:0.2")
      default_OrcaLoadReport
    = (AlreadyExistsError
         "x-endpoint-load-metrics contains duplicate metric: cpu_utilization",
       set_cpu_utilization (S754_finite false 7205759403792794 (-56))
         default_OrcaLoadReport).
Proof.
  split; [vm_compute; reflexivity |].
  apply (proj2 (@repeated_metric_name_is_rejected strict_collaborators
           (single_header kEndpointLoadMetricsHeader
              "cpu_utilization:0.1,cpu_utilization:0.2")
           ["cpu_utilization:0.1"] [] "cpu_utilization:0.2"
           default_OrcaLoadReport
           ltac:(discriminate) eq_refl ltac:(constructor))).
  vm_compute; reflexivity.
Defined.

(** C3 as stated fails: in the tokens of
    [cpu_utilization:0.1,eps:,cpu_utilization:0.2] the name cpu_utilization
    occurs twice, and the decoding fails with InvalidArgument, the error of
    the second token, which has no value. *)
Lemma repeated_name_behind_a_failing_token :
  metric_name_of <$>
    parseCommaDelimitedHeader
      (single_header kEndpointLoadMetricsHeader
         "cpu_utilization:0.1,eps:,cpu_utilization:0.2")
  = ["cpu_utilization"; "eps"; "cpu_utilization"]
  ∧ @parseOrcaLoadReportHeaders strict_collaborators
      (single_header kEndpointLoadMetricsHeader
         "cpu_utilization:0.1,eps:,cpu_utilization:0.2")
    = Failed kInvalidArgument "metric values cannot be empty strings".
Proof. split; vm_compute; reflexivity. Qed.

(** ** The assigner, case by case *)

Lemma fixed_field_name_cases (n : string) :
  n ∈ fixed_field_names ↔
  n = "cpu_utilization" ∨ n = "mem_utilization"
  ∨ n = "application_utilization" ∨ n = "eps" ∨ n = "rps_fractional".
Proof.
  unfold fixed_field_names. rewrite !elem_of_cons, elem_of_nil. tauto.
Qed.

Lemma fixed_field_name_no_prefix (n : string) :
  n ∈ fixed_field_names → string_view.starts_with n "named_metrics." = false.
Proof.
  rewrite fixed_field_name_cases. intros [-> | [-> | [-> | [-> | ->]]]]; done.
Qed.

Lemma field_of_set_named_metrics
    (n : string) (m : gmap string double) (r : OrcaLoadReport) :
  field_of n (set_named_metrics m r) = field_of n r.
Proof. reflexivity. Qed.

Lemma named_prefix_inj (key1 key2 : string) :
  "named_metrics." +:+ key1 = "named_metrics." +:+ key2 → key1 = key2.
Proof. intros Heq. by simplify_eq. Qed.

Section AssignerCases.
Context `{Collaborators}.

Lemma tryCopyMetricToOrcaLoadReport_named
    (key metric_value : string) (value : double) (r : OrcaLoadReport) :
  empty metric_value = false →
  safe_strtod metric_value = Some value →
  tryCopyMetricToOrcaLoadReport ("named_metrics." +:+ key) metric_value r
    = tryCopyNamedMetricToOrcaLoadReport key value r.
Proof.
  intros Hvalue Hparse. unfold tryCopyMetricToOrcaLoadReport.
  change (empty ("named_metrics." +:+ key)) with false. cbv iota.
  rewrite Hvalue, Hparse, starts_with_append.
  by destruct (find_dot_in_range key) as [_ ->].
Qed.

(** What a successful assignment did. *)
Lemma tryCopyMetricToOrcaLoadReport_ok_inv
    (metric_name metric_value : string) (r r' : OrcaLoadReport) :
  tryCopyMetricToOrcaLoadReport metric_name metric_value r = (OkStatus, r') →
  empty metric_value = false
  ∧ ∃ value,
      safe_strtod metric_value = Some value
      ∧ ((metric_name ∈ fixed_field_names
          ∧ field_of metric_name r' = Some value
          ∧ (∀ n, n ≠ metric_name → field_of n r' = field_of n r)
          ∧ named_metrics r' = named_metrics r)
         ∨ (∃ key,
              metric_name = "named_metrics." +:+ key
              ∧ key ≠ ""
              ∧ named_metrics r !! key = None
              ∧ named_metrics r' = <[key := value]> (named_metrics r)
              ∧ ∀ n, field_of n r' = field_of n r)).
Proof.
  unfold tryCopyMetricToOrcaLoadReport.
  destruct (empty metric_name); [done |].
  destruct (empty metric_value) eqn:Hvalue; [done |].
  destruct (safe_strtod metric_value) as [value|] eqn:Hparse; [|done].
  intros Hrun. split; [done |]. exists value. split; [done |].
  destruct (string_view.starts_with metric_name "named_metrics.") eqn:Hprefix.
  - right. destruct (starts_with_inv _ _ Hprefix) as [key ->].
    destruct (find_dot_in_range key) as [_ Hkey]. cbv zeta in Hkey.
    rewrite Hkey, tryCopyNamedMetricToOrcaLoadReport_cases in Hrun.
    destruct (empty key) eqn:Hempty; [done |].
    destruct (named_metrics r !! key) eqn:Hlookup; [done |].
    injection Hrun as <-. exists key.
    split; [done |]. split; [by apply empty_false |]. done.
  - left.
    repeat case_decide; try done; injection Hrun as <-; subst metric_name;
      (split; [rewrite fixed_field_name_cases; tauto |]);
      (split; [reflexivity |]);
      (split; [|reflexivity]);
      intros n Hn; unfold field_of; repeat case_decide; done.
Qed.

(** Why an assignment failed. *)
Lemma tryCopyMetricToOrcaLoadReport_error_inv
    (metric_name metric_value : string) (r r' : OrcaLoadReport)
    (code : StatusCode) (message : string) :
  tryCopyMetricToOrcaLoadReport metric_name metric_value r
    = (Error code message, r') →
  r' = r
  ∧ (code = kInvalidArgument
     ∨ (code = kAlreadyExists
        ∧ ∃ key,
            metric_name = "named_metrics." +:+ key
            ∧ is_Some (named_metrics r !! key)
            ∧ message = StrCat [kEndpointLoadMetricsHeader;
                                " contains duplicate named metric: "; key])).
Proof.
  unfold tryCopyMetricToOrcaLoadReport.
  destruct (empty metric_name); [intros [= <- _ <-]; auto |].
  destruct (empty metric_value); [intros [= <- _ <-]; auto |].
  destruct (safe_strtod metric_value) as [value|];
    [|intros [= <- _ <-]; auto].
  destruct (string_view.starts_with metric_name "named_metrics.") eqn:Hprefix.
  - destruct (starts_with_inv _ _ Hprefix) as [key ->].
    destruct (find_dot_in_range key) as [_ Hkey]. cbv zeta in Hkey.
    rewrite Hkey, tryCopyNamedMetricToOrcaLoadReport_cases.
    destruct (empty key); [intros [= <- _ <-]; auto |].
    destruct (named_metrics r !! key) eqn:Hlookup; [|done].
    intros [= <- <- <-]. split; [done |]. right. split; [done |].
    exists key. by rewrite Hlookup.
  - repeat case_decide; try done. intros [= <- _ <-]; auto.
Qed.

Lemma tryCopyMetricToOrcaLoadReport_ok_intro
    (token : string) (r : OrcaLoadReport) :
  assignable token →
  (∀ key, metric_name_of token = "named_metrics." +:+ key →
          named_metrics r !! key = None) →
  ∃ r', tryCopyMetricToOrcaLoadReport (metric_name_of token)
          (metric_value_of token) r = (OkStatus, r').
Proof.
  intros (Hvalue & [value Hparse] & Hname) Hfree.
  destruct Hname as [Hfixed | [Hprefix Hkey]].
  - destruct (tryCopyMetricToOrcaLoadReport_fixed _ _ value r
                Hfixed Hvalue Hparse) as (r' & Hrun & _).
    by exists r'.
  - destruct (starts_with_inv _ _ Hprefix) as [key Hsplit].
    rewrite Hsplit, (tryCopyMetricToOrcaLoadReport_named _ _ _ _ Hvalue Hparse).
    rewrite tryCopyNamedMetricToOrcaLoadReport_cases.
    destruct key as [|c key]; [by rewrite Hsplit in Hkey |].
    cbn [empty]. rewrite (Hfree _ Hsplit). by eexists.
Qed.

(** X1: an error of the metric assigner leaves the report exactly as it
    was, and its code is InvalidArgument or AlreadyExists; it is
    AlreadyExists only for a name [named_metrics.key] whose key is already
    in the named-metric map. *)
Theorem assigner_error_keeps_report
    (metric_name metric_value : string) (r r' : OrcaLoadReport)
    (code : StatusCode) (message : string) :
  tryCopyMetricToOrcaLoadReport metric_name metric_value r
    = (Error code message, r') →
  r' = r
  ∧ (code = kInvalidArgument ∨ code = kAlreadyExists)
  ∧ (code = kAlreadyExists →
     ∃ key, metric_name = "named_metrics." +:+ key
            ∧ is_Some (named_metrics r !! key)).
Proof.
  intros Hrun.
  destruct (tryCopyMetricToOrcaLoadReport_error_inv _ _ _ _ _ _ Hrun)
    as [-> [-> | (-> & key & Hname & Hkey & _)]].
  - split; [done |]. split; [by left | done].
  - split; [done |]. split; [by right |]. intros _. by exists key.
Qed.

(** X2: for a fixed field name and a value-string that is not empty and
    parses, the assigner succeeds whatever the field holds: afterwards the
    field is the parsed value, and the four other fields and the named
    metrics are as before. The assigner alone does not notice that a fixed
    field is set a second time. *)
Theorem fixed_field_is_overwritten
    (metric_name metric_value : string) (value : double) (r : OrcaLoadReport) :
  metric_name ∈ fixed_field_names →
  empty metric_value = false →
  safe_strtod metric_value = Some value →
  ∃ r',
    tryCopyMetricToOrcaLoadReport metric_name metric_value r = (OkStatus, r')
    ∧ field_of metric_name r' = Some value
    ∧ (∀ n, n ≠ metric_name → field_of n r' = field_of n r)
    ∧ named_metrics r' = named_metrics r.
Proof.
  intros Hfixed Hvalue Hparse.
  destruct (tryCopyMetricToOrcaLoadReport_fixed _ _ value r
              Hfixed Hvalue Hparse) as (r' & Hrun & _).
  exists r'. split; [done |].
  destruct (tryCopyMetricToOrcaLoadReport_ok_inv _ _ _ _ Hrun)
    as (_ & value' & Hparse' & Hcases).
  assert (value' = value) as -> by congruence.
  destruct Hcases as [(_ & Hfield & Hframe & Hnamed) | (key & -> & _)]; [done |].
  by apply fixed_field_name_no_prefix in Hfixed;
    rewrite starts_with_append in Hfixed.
Qed.

End AssignerCases.

(** ** The plain-text decoder, from the tokens to the report *)

Lemma named_prefix_alone (key : string) :
  "named_metrics." +:+ key = "named_metrics." → key = "".
Proof. intros Heq. by apply (named_prefix_inj key ""). Qed.

Lemma field_of_not_fixed (n : string) (r : OrcaLoadReport) :
  n ∉ fixed_field_names → field_of n r = None.
Proof.
  rewrite fixed_field_name_cases. intros Hn.
  unfold field_of. repeat case_decide; tauto.
Qed.

Lemma report_ext (r1 r2 : OrcaLoadReport) :
  (∀ n, field_of n r1 = field_of n r2) →
  named_metrics r1 = named_metrics r2 →
  r1 = r2.
Proof.
  intros Hfields Hnamed. destruct r1, r2. simpl in Hnamed. subst.
  pose proof (Hfields "cpu_utilization") as [= ->].
  pose proof (Hfields "mem_utilization") as [= ->].
  pose proof (Hfields "application_utilization") as [= ->].
  pose proof (Hfields "eps") as [= ->].
  pose proof (Hfields "rps_fractional") as [= ->].
  reflexivity.
Qed.

Section DecoderCases.
Context `{Collaborators}.

Lemma tryCopyMetricToOrcaLoadReport_ok_assignable
    (token : string) (r r' : OrcaLoadReport) :
  tryCopyMetricToOrcaLoadReport (metric_name_of token) (metric_value_of token) r
    = (OkStatus, r') →
  assignable token.
Proof.
  intros Hrun.
  destruct (tryCopyMetricToOrcaLoadReport_ok_inv _ _ _ _ Hrun)
    as (Hvalue & value & Hparse & Hcases).
  split; [done |]. split; [by exists value |].
  destruct Hcases as [(Hfixed & _) | (key & Hname & Hkey & _)]; [by left |].
  right. rewrite Hname. split; [apply starts_with_append |].
  intros Halone. by apply named_prefix_alone in Halone.
Qed.

(** How one successful assignment changes the look-ups of the report. *)
Lemma tryCopyMetricToOrcaLoadReport_ok_lookups
    (metric_name metric_value : string) (r r' : OrcaLoadReport) :
  tryCopyMetricToOrcaLoadReport metric_name metric_value r = (OkStatus, r') →
  (∀ n, n ≠ metric_name → field_of n r' = field_of n r)
  ∧ (∀ key, "named_metrics." +:+ key ≠ metric_name →
            named_metrics r' !! key = named_metrics r !! key)
  ∧ (metric_name ∈ fixed_field_names →
     field_of metric_name r' = safe_strtod metric_value)
  ∧ (∀ key, metric_name = "named_metrics." +:+ key →
            named_metrics r' !! key = safe_strtod metric_value).
Proof.
  intros Hrun.
  destruct (tryCopyMetricToOrcaLoadReport_ok_inv _ _ _ _ Hrun)
    as (_ & value & Hparse & Hcases).
  rewrite Hparse.
  destruct Hcases as [(Hfixed & Hfield & Hframe & Hnamed)
                     | (key0 & -> & _ & _ & Hnamed & Hframe)].
  - split; [done |]. split; [by intros; rewrite Hnamed |]. split; [done |].
    intros key ->. apply fixed_field_name_no_prefix in Hfixed.
    by rewrite starts_with_append in Hfixed.
  - split; [done |]. split.
    { intros key Hne. rewrite Hnamed. apply lookup_insert_ne. congruence. }
    split.
    { intros Hfixed%fixed_field_name_no_prefix.
      by rewrite starts_with_append in Hfixed. }
    intros key ->%named_prefix_inj. rewrite Hnamed. apply lookup_insert_eq.
Qed.

(** A successful run of the loop: what it says about the tokens. *)
Lemma tryParseNativeHttpEncoded_loop_ok_inv
    (tokens : list string) (metric_names : gset string)
    (r r' : OrcaLoadReport) :
  tryParseNativeHttpEncoded_loop tokens metric_names r = (OkStatus, r') →
  Forall assignable tokens
  ∧ NoDup (metric_name_of <$> tokens)
  ∧ (∀ token, token ∈ tokens → metric_name_of token ∉ metric_names)
  ∧ named_keys_free tokens r.
Proof.
  revert metric_names r.
  induction tokens as [|t ts IH]; intros metric_names r Hrun.
  { split; [constructor |]. split; [constructor |].
    split; intros ? **; by set_solver. }
  destruct (decide (metric_name_of t ∈ metric_names)) as [Hseen|Hfresh].
  { by rewrite tryParseNativeHttpEncoded_loop_seen in Hrun. }
  rewrite tryParseNativeHttpEncoded_loop_fresh in Hrun by done.
  destruct (tryCopyMetricToOrcaLoadReport _ _ r) as [[|code message] r1]
    eqn:Hstep; [|done].
  destruct (IH _ _ Hrun) as (Hassign & Hnodup & Hnew & Hfree).
  destruct (tryCopyMetricToOrcaLoadReport_ok_lookups _ _ _ _ Hstep)
    as (_ & Hnamed & _ & _).
  destruct (tryCopyMetricToOrcaLoadReport_ok_inv _ _ _ _ Hstep)
    as (_ & value & _ & Hcases).
  split; [|split; [|split]].
  - constructor; [|done].
    by apply (tryCopyMetricToOrcaLoadReport_ok_assignable _ _ _ Hstep).
  - rewrite fmap_cons. constructor; [|done].
    intros (t' & Hname & Hin)%list_elem_of_fmap.
    apply (Hnew _ Hin). rewrite <- Hname. set_solver.
  - intros token [-> | Hin]%elem_of_cons; [done |].
    intros Hs. apply (Hnew _ Hin). set_solver.
  - intros token key [-> | Hin]%elem_of_cons Hname.
    + destruct Hcases as [(Hfixed & _) | (key0 & Hname0 & _ & Hnone & _)].
      * apply fixed_field_name_no_prefix in Hfixed.
        by rewrite Hname, starts_with_append in Hfixed.
      * rewrite Hname in Hname0. by apply named_prefix_inj in Hname0 as ->.
    + rewrite <- Hnamed; [by apply (Hfree token) |].
      intros Heq. apply (Hnew _ Hin). rewrite Hname, Heq. set_solver.
Qed.

(** The converse: such tokens are all assigned. *)
Lemma tryParseNativeHttpEncoded_loop_ok_intro
    (tokens : list string) (metric_names : gset string) (r : OrcaLoadReport) :
  Forall assignable tokens →
  NoDup (metric_name_of <$> tokens) →
  (∀ token, token ∈ tokens → metric_name_of token ∉ metric_names) →
  named_keys_free tokens r →
  ∃ r', tryParseNativeHttpEncoded_loop tokens metric_names r = (OkStatus, r').
Proof.
  revert metric_names r.
  induction tokens as [|t ts IH]; intros metric_names r Hassign Hnodup Hnew Hfree.
  { by eexists. }
  apply Forall_cons in Hassign as [Ht Hts].
  rewrite fmap_cons in Hnodup. apply NoDup_cons in Hnodup as [Hnotin Hnodup].
  rewrite tryParseNativeHttpEncoded_loop_fresh by (apply Hnew; set_solver).
  destruct (tryCopyMetricToOrcaLoadReport_ok_intro t r Ht) as [r1 Hstep].
  { intros key Hname. apply (Hfree t); [set_solver | done]. }
  rewrite Hstep.
  destruct (tryCopyMetricToOrcaLoadReport_ok_lookups _ _ _ _ Hstep)
    as (_ & Hnamed & _ & _).
  apply IH; [done | done | |].
  - intros token Hin [Hs%elem_of_singleton | Hs]%elem_of_union.
    + apply Hnotin. rewrite <- Hs. apply list_elem_of_fmap. by exists token.
    + apply (Hnew token); [set_solver | done].
  - intros token key Hin Hname. rewrite Hnamed.
    + apply (Hfree token); [set_solver | done].
    + intros Heq. apply Hnotin. rewrite <- Heq, <- Hname.
      apply list_elem_of_fmap. by exists token.
Qed.

(** The look-ups of the report a successful run leaves. *)
Lemma tryParseNativeHttpEncoded_loop_ok_lookups
    (tokens : list string) (metric_names : gset string)
    (r r' : OrcaLoadReport) :
  tryParseNativeHttpEncoded_loop tokens metric_names r = (OkStatus, r') →
  (∀ n, n ∉ (metric_name_of <$> tokens) → field_of n r' = field_of n r)
  ∧ (∀ key, "named_metrics." +:+ key ∉ (metric_name_of <$> tokens) →
            named_metrics r' !! key = named_metrics r !! key)
  ∧ (∀ token, token ∈ tokens → metric_name_of token ∈ fixed_field_names →
              field_of (metric_name_of token) r'
              = safe_strtod (metric_value_of token))
  ∧ (∀ token key, token ∈ tokens →
                  metric_name_of token = "named_metrics." +:+ key →
                  named_metrics r' !! key
                  = safe_strtod (metric_value_of token)).
Proof.
  revert metric_names r.
  induction tokens as [|t ts IH]; intros metric_names r Hrun.
  { injection Hrun as <-. repeat split; intros; set_solver. }
  destruct (tryParseNativeHttpEncoded_loop_ok_inv _ _ _ _ Hrun)
    as (_ & Hnodup & _ & _).
  rewrite fmap_cons in Hnodup. apply NoDup_cons in Hnodup as [Hnotin _].
  destruct (decide (metric_name_of t ∈ metric_names)) as [Hseen|Hfresh].
  { by rewrite tryParseNativeHttpEncoded_loop_seen in Hrun. }
  rewrite tryParseNativeHttpEncoded_loop_fresh in Hrun by done.
  destruct (tryCopyMetricToOrcaLoadReport _ _ r) as [[|code message] r1]
    eqn:Hstep; [|done].
  destruct (IH _ _ Hrun) as (Hframe & Hnframe & Hfixed & Hnamed).
  destruct (tryCopyMetricToOrcaLoadReport_ok_lookups _ _ _ _ Hstep)
    as (Hframe1 & Hnframe1 & Hfixed1 & Hnamed1).
  rewrite fmap_cons. split; [|split; [|split]].
  - intros n [Hne Hn]%not_elem_of_cons. by rewrite Hframe, Hframe1.
  - intros key [Hne Hn]%not_elem_of_cons. by rewrite Hnframe, Hnframe1.
  - intros token [-> | Hin]%elem_of_cons Hfix; [|by apply Hfixed].
    rewrite Hframe by done. by apply Hfixed1.
  - intros token key [-> | Hin]%elem_of_cons Hname; [|by apply Hnamed].
    rewrite Hnframe by (by rewrite <- Hname). by apply Hnamed1.
Qed.

Lemma tryParseNativeHttpEncoded_tokens
    (header : Http.GetResult) (r : OrcaLoadReport) :
  header ≠ [] →
  tryParseNativeHttpEncoded header r
  = tryParseNativeHttpEncoded_loop (parseCommaDelimitedHeader header) ∅ r.
Proof. intros Hne. unfold tryParseNativeHttpEncoded. by destruct header. Qed.

(** X3: the plain-text decoder succeeds exactly when every token can be
    assigned on its own, no metric name occurs twice, and no named-metric
    key of a token is already in the map of the report it starts from. *)
Theorem plain_text_decoding_succeeds_iff
    (header : Http.GetResult) (r : OrcaLoadReport) :
  header ≠ [] →
  (∃ r', tryParseNativeHttpEncoded header r = (OkStatus, r'))
  ↔ Forall assignable (parseCommaDelimitedHeader header)
    ∧ NoDup (metric_name_of <$> parseCommaDelimitedHeader header)
    ∧ named_keys_free (parseCommaDelimitedHeader header) r.
Proof.
  intros Hne. rewrite (tryParseNativeHttpEncoded_tokens _ _ Hne). split.
  - intros [r' Hrun].
    destruct (tryParseNativeHttpEncoded_loop_ok_inv _ _ _ _ Hrun)
      as (Hassign & Hnodup & _ & Hfree).
    done.
  - intros (Hassign & Hnodup & Hfree).
    apply tryParseNativeHttpEncoded_loop_ok_intro; [done | done | | done].
    intros token _. set_solver.
Qed.

(** X4: after a successful plain-text decoding, each fixed field named by a
    token holds the number parsed from that token, each key named by a token
    [named_metrics.key:value] maps to the number parsed from it, and the
    fields and keys that no token names are as they were before. *)
Theorem plain_text_decoding_lookups
    (header : Http.GetResult) (r r' : OrcaLoadReport) :
  header ≠ [] →
  tryParseNativeHttpEncoded header r = (OkStatus, r') →
  (∀ token, token ∈ parseCommaDelimitedHeader header →
            metric_name_of token ∈ fixed_field_names →
            field_of (metric_name_of token) r'
            = safe_strtod (metric_value_of token))
  ∧ (∀ token key, token ∈ parseCommaDelimitedHeader header →
                  metric_name_of token = "named_metrics." +:+ key →
                  named_metrics r' !! key
                  = safe_strtod (metric_value_of token))
  ∧ (∀ n, n ∉ (metric_name_of <$> parseCommaDelimitedHeader header) →
          field_of n r' = field_of n r)
  ∧ (∀ key, "named_metrics." +:+ key
              ∉ (metric_name_of <$> parseCommaDelimitedHeader header) →
            named_metrics r' !! key = named_metrics r !! key).
Proof.
  intros Hne. rewrite (tryParseNativeHttpEncoded_tokens _ _ Hne). intros Hrun.
  destruct (tryParseNativeHttpEncoded_loop_ok_lookups _ _ _ _ Hrun)
    as (Hframe & Hnframe & Hfixed & Hnamed).
  done.
Qed.

End DecoderCases.

(** ** Shape of the tokens and of the header values *)

Lemma StrSplit_append (s t : string) (c : ascii) :
  StrSplit (s +:+ String c t) c = StrSplit s c ++ StrSplit t c.
Proof.
  induction s as [|a s IH]; rewrite ?append_nil, ?append_cons; simpl.
  - by rewrite Ascii.eqb_refl.
  - destruct (Ascii.eqb a c); [by rewrite IH |].
    rewrite IH. pose proof (StrSplit_not_nil s c).
    by destruct (StrSplit s c).
Qed.

Lemma HeaderUtility_parseCommaDelimitedHeader_append (v1 v2 : string) :
  Http.HeaderUtility_parseCommaDelimitedHeader (v1 +:+ String "," v2)
  = Http.HeaderUtility_parseCommaDelimitedHeader v1
    ++ Http.HeaderUtility_parseCommaDelimitedHeader v2.
Proof.
  rewrite !HeaderUtility_parseCommaDelimitedHeader_filter.
  by rewrite StrSplit_append, fmap_app, filter_app.
Qed.

Lemma parseCommaDelimitedHeader_app (entry1 entry2 : Http.GetResult) :
  parseCommaDelimitedHeader (entry1 ++ entry2)
  = parseCommaDelimitedHeader entry1 ++ parseCommaDelimitedHeader entry2.
Proof. rewrite !parseCommaDelimitedHeader_concat, fmap_app. apply concat_app. Qed.

Lemma parseCommaDelimitedHeader_cons
    (e : Http.HeaderEntry) (entry : Http.GetResult) :
  parseCommaDelimitedHeader (e :: entry)
  = Http.HeaderUtility_parseCommaDelimitedHeader (Http.value e)
    ++ parseCommaDelimitedHeader entry.
Proof. by rewrite !parseCommaDelimitedHeader_concat, fmap_cons. Qed.

(** A token with a value-string is [name:value], split at its first
    colon, with text other than whitespace on both sides. *)
Lemma metric_value_of_not_empty (token : string) :
  metric_value_of token ≠ "" →
  token = metric_name_of token +:+ String ":" (metric_value_of token)
  ∧ contains (metric_name_of token) ":" = false
  ∧ SkipWhitespace (metric_name_of token) = true
  ∧ SkipWhitespace (metric_value_of token) = true.
Proof.
  unfold metric_value_of, metric_name_of, splitMetric. cbn [StrSplitMax].
  destruct (FindFirst token ":") as [[before after]|] eqn:Hfind.
  - apply FindFirst_inv in Hfind as [-> Hbefore].
    rewrite !filter_cons, filter_nil.
    destruct (SkipWhitespace before) eqn:Hb, (SkipWhitespace after) eqn:Ha;
      repeat case_decide; try done.
  - rewrite filter_cons, filter_nil. by case_decide.
Qed.

Section Shape.
Context `{Collaborators}.

(** X5: a successful plain-text decoding has tokens of the form
    [name:value], cut at the first colon of the token: putting the name, a
    colon and the value-string together gives the token back, the name holds
    no colon, and neither side is empty or all whitespace. *)
Theorem decoded_tokens_are_name_colon_value
    (header : Http.GetResult) (r r' : OrcaLoadReport) (token : string) :
  header ≠ [] →
  tryParseNativeHttpEncoded header r = (OkStatus, r') →
  token ∈ parseCommaDelimitedHeader header →
  token = metric_name_of token +:+ String ":" (metric_value_of token)
  ∧ contains (metric_name_of token) ":" = false
  ∧ SkipWhitespace (metric_name_of token) = true
  ∧ SkipWhitespace (metric_value_of token) = true.
Proof.
  intros Hne. rewrite (tryParseNativeHttpEncoded_tokens _ _ Hne).
  intros Hrun Hin.
  destruct (tryParseNativeHttpEncoded_loop_ok_inv _ _ _ _ Hrun)
    as (Hassign & _).
  rewrite Forall_forall in Hassign.
  destruct (Hassign _ Hin) as (Hvalue & _).
  apply metric_value_of_not_empty. by apply empty_false.
Qed.

(** X6: two occurrences of the plain-text header that follow each other
    decode as the single occurrence whose value is the first value, a comma
    and the second value. *)
Theorem two_occurrences_decode_as_one_joined
    (before after : Http.GetResult) (e1 e2 : Http.HeaderEntry)
    (r : OrcaLoadReport) :
  tryParseNativeHttpEncoded (before ++ e1 :: e2 :: after) r
  = tryParseNativeHttpEncoded
      (before
       ++ Http.mkHeaderEntry (Http.key e1)
            (Http.value e1 +:+ String "," (Http.value e2))
       :: after) r.
Proof.
  rewrite !tryParseNativeHttpEncoded_tokens by (by destruct before).
  f_equal. rewrite !parseCommaDelimitedHeader_app. f_equal.
  rewrite !parseCommaDelimitedHeader_cons. cbn [Http.value].
  by rewrite HeaderUtility_parseCommaDelimitedHeader_append, app_assoc.
Qed.

(** X7: once the occurrences read so far make the plain-text decoder
    fail, occurrences that follow change nothing: the same error is
    returned. *)
Theorem later_occurrences_cannot_repair_a_failure
    (header1 header2 : Http.GetResult) (r r' : OrcaLoadReport)
    (code : StatusCode) (message : string) :
  header1 ≠ [] →
  tryParseNativeHttpEncoded header1 r = (Error code message, r') →
  tryParseNativeHttpEncoded (header1 ++ header2) r = (Error code message, r').
Proof.
  intros Hne.
  rewrite !tryParseNativeHttpEncoded_tokens by (by destruct header1).
  rewrite parseCommaDelimitedHeader_app.
  apply tryParseNativeHttpEncoded_loop_error.
Qed.

Lemma tryParseNativeHttpEncoded_loop_named_metrics
    (tokens : list string) (metric_names : gset string) (r : OrcaLoadReport) :
  named_metrics r
  ⊆ named_metrics (tryParseNativeHttpEncoded_loop tokens metric_names r).2.
Proof.
  revert metric_names r.
  induction tokens as [|t ts IH]; intros metric_names r; [done |].
  destruct (decide (metric_name_of t ∈ metric_names)) as [Hseen|Hfresh].
  { by rewrite tryParseNativeHttpEncoded_loop_seen. }
  rewrite tryParseNativeHttpEncoded_loop_fresh by done.
  destruct (tryCopyMetricToOrcaLoadReport _ _ r) as [[|code message] r1]
    eqn:Hstep.
  - etrans; [|apply IH].
    destruct (tryCopyMetricToOrcaLoadReport_ok_inv _ _ _ _ Hstep)
      as (_ & value & _ & [(_ & _ & _ & ->) | (key & _ & _ & Hnone & -> & _)]);
      [done |].
    by apply insert_subseteq.
  - by destruct (tryCopyMetricToOrcaLoadReport_error_inv _ _ _ _ _ _ Hstep)
      as [-> _].
Qed.

(** X8: whatever its outcome, the plain-text decoder never removes a named
    metric from the report it is given and never changes the value of one:
    the named metrics it starts from are all in the report it leaves. *)
Theorem named_metrics_are_only_added
    (header : Http.GetResult) (r : OrcaLoadReport) :
  named_metrics r ⊆ named_metrics (tryParseNativeHttpEncoded header r).2.
Proof.
  unfold tryParseNativeHttpEncoded. destruct (Http.is_empty header); [done |].
  apply tryParseNativeHttpEncoded_loop_named_metrics.
Qed.

Lemma tryParseNativeHttpEncoded_loop_already_exists
    (tokens : list string) (metric_names : gset string)
    (r r' : OrcaLoadReport) (message : string) :
  (∀ key, is_Some (named_metrics r !! key) →
          "named_metrics." +:+ key ∈ metric_names) →
  tryParseNativeHttpEncoded_loop tokens metric_names r
    = (Error kAlreadyExists message, r') →
  ∃ pre token post,
    tokens = pre ++ token :: post
    ∧ (metric_name_of token ∈ metric_names
       ∨ metric_name_of token ∈ (metric_name_of <$> pre))
    ∧ message = StrCat [kEndpointLoadMetricsHeader;
                        " contains duplicate metric: "; metric_name_of token]
    ∧ tryParseNativeHttpEncoded_loop pre metric_names r = (OkStatus, r').
Proof.
  revert metric_names r.
  induction tokens as [|t ts IH]; intros metric_names r Hinv Hrun; [done |].
  destruct (decide (metric_name_of t ∈ metric_names)) as [Hseen|Hfresh].
  { rewrite tryParseNativeHttpEncoded_loop_seen in Hrun by done.
    injection Hrun as <- <-. exists [], t, ts. by repeat split; [left |..]. }
  rewrite tryParseNativeHttpEncoded_loop_fresh in Hrun by done.
  destruct (tryCopyMetricToOrcaLoadReport _ _ r) as [[|code message1] r1]
    eqn:Hstep.
  - destruct (tryCopyMetricToOrcaLoadReport_ok_lookups _ _ _ _ Hstep)
      as (_ & Hnamed & _ & _).
    assert (Hinv1 : ∀ key, is_Some (named_metrics r1 !! key) →
                           "named_metrics." +:+ key
                           ∈ ({[metric_name_of t]} ∪ metric_names : gset string)).
    { intros key Hkey.
      destruct (decide ("named_metrics." +:+ key = metric_name_of t))
        as [-> | Hne]; [set_solver |].
      rewrite Hnamed in Hkey by done. apply Hinv in Hkey. set_solver. }
    destruct (IH _ _ Hinv1 Hrun)
      as (pre & token & post & -> & Hdup & -> & Hpre).
    exists (t :: pre), token, post. split; [done |]. split; [|split; [done |]].
    + rewrite fmap_cons. set_solver.
    + rewrite tryParseNativeHttpEncoded_loop_fresh by done. by rewrite Hstep.
  - injection Hrun as -> -> ->.
    destruct (tryCopyMetricToOrcaLoadReport_error_inv _ _ _ _ _ _ Hstep)
      as [_ [? | (_ & key & Hname & Hkey & _)]]; [done |].
    apply Hinv in Hkey. by rewrite <- Hname in Hkey.
Qed.

(** X9: started on a report without named metrics, the plain-text decoder
    returns AlreadyExists only for a token whose metric name is the name of
    an earlier token; the message names the header key and that metric
    name, every token before it has been assigned, and the report is the one
    those tokens left. The duplicate check of the named-metric map is never
    the one that answers. *)
Theorem already_exists_means_repeated_name
    (header : Http.GetResult) (r r' : OrcaLoadReport) (message : string) :
  header ≠ [] →
  named_metrics r = ∅ →
  tryParseNativeHttpEncoded header r = (Error kAlreadyExists message, r') →
  ∃ pre token post,
    parseCommaDelimitedHeader header = pre ++ token :: post
    ∧ metric_name_of token ∈ (metric_name_of <$> pre)
    ∧ message = StrCat [kEndpointLoadMetricsHeader;
                        " contains duplicate metric: "; metric_name_of token]
    ∧ tryParseNativeHttpEncoded_loop pre ∅ r = (OkStatus, r').
Proof.
  intros Hne Hempty. rewrite (tryParseNativeHttpEncoded_tokens _ _ Hne).
  intros Hrun.
  assert (Hinv : ∀ key, is_Some (named_metrics r !! key) →
                        "named_metrics." +:+ key ∈ (∅ : gset string)).
  { intros key. rewrite Hempty, lookup_empty. by intros [? ?]. }
  destruct (tryParseNativeHttpEncoded_loop_already_exists _ _ _ _ _ Hinv Hrun)
    as (pre & token & post & Htokens & Hdup & Hmsg & Hpre).
  exists pre, token, post. destruct Hdup as [Hdup | Hdup]; [set_solver | done].
Qed.

(** X10: the order of the tokens does not matter to a successful
    plain-text decoding: headers whose tokens are the same up to their order
    decode to the same report. *)
Theorem token_order_is_irrelevant
    (header1 header2 : Http.GetResult) (r r' : OrcaLoadReport) :
  header1 ≠ [] →
  header2 ≠ [] →
  parseCommaDelimitedHeader header1 ≡ₚ parseCommaDelimitedHeader header2 →
  tryParseNativeHttpEncoded header1 r = (OkStatus, r') →
  tryParseNativeHttpEncoded header2 r = (OkStatus, r').
Proof.
  intros Hne1 Hne2 Hperm. rewrite !tryParseNativeHttpEncoded_tokens by done.
  intros Hrun1.
  destruct (tryParseNativeHttpEncoded_loop_ok_inv _ _ _ _ Hrun1)
    as (Hassign & Hnodup & _ & Hfree).
  destruct (tryParseNativeHttpEncoded_loop_ok_intro
              (parseCommaDelimitedHeader header2) ∅ r) as [r2 Hrun2].
  { by rewrite <- Hperm. }
  { by rewrite <- Hperm. }
  { intros token _. set_solver. }
  { intros token key Hin. apply Hfree. by rewrite Hperm. }
  rewrite Hrun2. f_equal.
  destruct (tryParseNativeHttpEncoded_loop_ok_lookups _ _ _ _ Hrun1)
    as (Hframe1 & Hnframe1 & Hfixed1 & Hnamed1).
  destruct (tryParseNativeHttpEncoded_loop_ok_lookups _ _ _ _ Hrun2)
    as (Hframe2 & Hnframe2 & Hfixed2 & Hnamed2).
  apply report_ext.
  - intros n.
    destruct (decide (n ∈ fixed_field_names)) as [Hfix | Hfix];
      [|by rewrite !field_of_not_fixed].
    destruct (decide (n ∈ (metric_name_of <$> parseCommaDelimitedHeader header1)))
      as [Hin | Hout].
    + apply list_elem_of_fmap in Hin as (token & -> & Hin).
      rewrite Hfixed1 by done. rewrite Hfixed2; [done | by rewrite <- Hperm | done].
    + rewrite Hframe1 by done. rewrite Hframe2; [done | by rewrite <- Hperm].
  - apply map_eq. intros key.
    destruct (decide ("named_metrics." +:+ key
                      ∈ (metric_name_of <$> parseCommaDelimitedHeader header1)))
      as [Hin | Hout].
    + apply list_elem_of_fmap in Hin as (token & Hname & Hin).
      rewrite (Hnamed1 token key) by done.
      rewrite (Hnamed2 token key); [done | by rewrite <- Hperm | done].
    + rewrite Hnframe1 by done. rewrite Hnframe2; [done | by rewrite <- Hperm].
Qed.

End Shape.

(** ** The dispatcher, beyond the choice of the encoding *)

Section DispatchCases.
Context `{Collaborators}.

Lemma tryParseNativeHttpEncoded_loop_error_code
    (tokens : list string) (metric_names : gset string)
    (r r' : OrcaLoadReport) (code : StatusCode) (message : string) :
  tryParseNativeHttpEncoded_loop tokens metric_names r
    = (Error code message, r') →
  code = kInvalidArgument ∨ code = kAlreadyExists.
Proof.
  revert metric_names r.
  induction tokens as [|t ts IH]; intros metric_names r; [done |].
  destruct (decide (metric_name_of t ∈ metric_names)) as [Hseen|Hfresh].
  { rewrite tryParseNativeHttpEncoded_loop_seen by done.
    intros [= <- _ _]. by right. }
  rewrite tryParseNativeHttpEncoded_loop_fresh by done.
  destruct (tryCopyMetricToOrcaLoadReport _ _ r) as [[|code1 message1] r1]
    eqn:Hstep; [apply IH |].
  intros [= <- _ _].
  destruct (tryCopyMetricToOrcaLoadReport_error_inv _ _ _ _ _ _ Hstep)
    as [_ [-> | [-> _]]]; auto.
Qed.

Lemma tryParseNativeHttpEncoded_error_code
    (header : Http.GetResult) (r r' : OrcaLoadReport)
    (code : StatusCode) (message : string) :
  tryParseNativeHttpEncoded header r = (Error code message, r') →
  code = kInvalidArgument ∨ code = kAlreadyExists.
Proof.
  unfold tryParseNativeHttpEncoded. destruct (Http.is_empty header).
  - intros [= <- _ _]. by left.
  - apply tryParseNativeHttpEncoded_loop_error_code.
Qed.

Lemma parseBinary_error_code
    (bin : Http.GetResult) (r r' : OrcaLoadReport)
    (code : StatusCode) (message : string) :
  parseBinary bin r = (Error code message, r') → code = kInvalidArgument.
Proof.
  unfold parseBinary. destruct bin as [|first bin]; [done |].
  destruct (ParseFromString _ _) as [[|] report]; [done |].
  by intros [= <- _ _].
Qed.

(** X11: when the header map has no entry under the JSON key, the parser
    fails only with NotFound, InvalidArgument or AlreadyExists: NotFound
    exactly when none of the keys is present, AlreadyExists only from the
    plain-text header standing alone. *)
Theorem error_codes_without_json
    (headers : Http.HeaderMap) (code : StatusCode) (message : string) :
  Http.get headers kEndpointLoadMetricsHeaderJson = [] →
  parseOrcaLoadReportHeaders headers = Failed code message →
  (code = kNotFound ∧ formats_present headers = 0)
  ∨ (code = kInvalidArgument ∧ formats_present headers ≠ 0)
  ∨ (code = kAlreadyExists
     ∧ Http.get headers kEndpointLoadMetricsHeader ≠ []
     ∧ Http.get headers kEndpointLoadMetricsHeaderBin = []).
Proof.
  intros Hjson.
  rewrite formats_present_count, parseOrcaLoadReportHeaders_lookups.
  unfold present. cbv zeta. rewrite Hjson.
  destruct (Http.get headers kEndpointLoadMetricsHeader) as [|n ns] eqn:Hn,
    (Http.get headers kEndpointLoadMetricsHeaderBin) as [|b bs] eqn:Hb;
    cbn [Http.is_empty negb Nat.b2n Nat.add].
  - intros [= <- _]. by left.
  - destruct (parseBinary _ _) as [[|code1 message1] report] eqn:Hrun; [done |].
    intros [= <- _]. apply parseBinary_error_code in Hrun as ->.
    right. by left.
  - destruct (tryParseNativeHttpEncoded _ _) as [[|code1 message1] report]
      eqn:Hrun; [done |].
    intros [= <- _].
    apply tryParseNativeHttpEncoded_error_code in Hrun as [-> | ->].
    + right. by left.
    + right. by right.
  - intros [= <- _]. right. by left.
Qed.

(** X12: a plain-text header that is present and holds no token (an empty
    value, or only commas and whitespace) is not an error: with no other
    ORCA key present, the parser returns the default report. *)
Theorem plain_text_header_without_tokens
    (headers : Http.HeaderMap) :
  Http.get headers kEndpointLoadMetricsHeaderJson = [] →
  Http.get headers kEndpointLoadMetricsHeaderBin = [] →
  Http.get headers kEndpointLoadMetricsHeader ≠ [] →
  parseCommaDelimitedHeader (Http.get headers kEndpointLoadMetricsHeader) = [] →
  parseOrcaLoadReportHeaders headers = Value default_OrcaLoadReport.
Proof.
  intros Hjson Hbin Hnative Htokens.
  rewrite parseOrcaLoadReportHeaders_lookups. cbv zeta. rewrite Hjson, Hbin.
  rewrite (tryParseNativeHttpEncoded_tokens _ _ Hnative), Htokens.
  by destruct (Http.get headers kEndpointLoadMetricsHeader).
Qed.

Lemma get_insert_other
    (before after : Http.HeaderMap) (e : Http.HeaderEntry) (k : string) :
  Http.key e ≠ k →
  Http.get (before ++ e :: after) k = Http.get (before ++ after) k.
Proof.
  intros Hk. unfold Http.get. rewrite !filter_app, filter_cons.
  by rewrite decide_False.
Qed.

(** X13: an entry under a key that is none of the three ORCA keys has no
    effect on the result, wherever it stands in the header map. *)
Theorem other_entries_are_ignored
    (before after : Http.HeaderMap) (e : Http.HeaderEntry) :
  ¬ orca_key (Http.key e) →
  parseOrcaLoadReportHeaders (before ++ e :: after)
  = parseOrcaLoadReportHeaders (before ++ after).
Proof.
  unfold orca_key. intros Hkey.
  rewrite !parseOrcaLoadReportHeaders_lookups. cbv zeta.
  rewrite !(get_insert_other before after e) by tauto. done.
Qed.

(** X14: a report decoded from the plain-text header alone holds nothing
    but what the tokens name: a fixed field that no token names is zero, and
    the keys of the named-metric map are exactly the keys that the tokens
    name with the prefix [named_metrics.]. *)
Theorem plain_text_report_holds_only_the_tokens
    (headers : Http.HeaderMap) (report : OrcaLoadReport) :
  Http.get headers kEndpointLoadMetricsHeaderJson = [] →
  Http.get headers kEndpointLoadMetricsHeaderBin = [] →
  parseOrcaLoadReportHeaders headers = Value report →
  (∀ n, n ∈ fixed_field_names →
        n ∉ (metric_name_of <$> parseCommaDelimitedHeader
               (Http.get headers kEndpointLoadMetricsHeader)) →
        field_of n report = Some binary64.zero)
  ∧ (∀ key,
       is_Some (named_metrics report !! key)
       ↔ "named_metrics." +:+ key
           ∈ (metric_name_of <$> parseCommaDelimitedHeader
                (Http.get headers kEndpointLoadMetricsHeader))).
Proof.
  intros Hjson Hbin.
  rewrite parseOrcaLoadReportHeaders_lookups. cbv zeta. rewrite Hjson, Hbin.
  destruct (Http.get headers kEndpointLoadMetricsHeader) as [|n ns] eqn:Hn;
    [done |].
  rewrite tryParseNativeHttpEncoded_tokens by done.
  destruct (tryParseNativeHttpEncoded_loop _ _ _) as [[|code message] r']
    eqn:Hrun; [|done].
  intros [= <-].
  destruct (tryParseNativeHttpEncoded_loop_ok_lookups _ _ _ _ Hrun)
    as (Hframe & Hnframe & _ & Hnamed).
  destruct (tryParseNativeHttpEncoded_loop_ok_inv _ _ _ _ Hrun)
    as (Hassign & _).
  split.
  - intros name Hfixed Hout. rewrite Hframe by done.
    apply fixed_field_name_cases in Hfixed
      as [-> | [-> | [-> | [-> | ->]]]]; reflexivity.
  - intros key. split.
    + intros Hsome.
      destruct (decide ("named_metrics." +:+ key
                        ∈ (metric_name_of <$> parseCommaDelimitedHeader (n :: ns))))
        as [Hin | Hout]; [done |].
      rewrite Hnframe in Hsome by done. by destruct Hsome.
    + intros (token & Hname & Hin)%list_elem_of_fmap.
      rewrite (Hnamed token key) by done.
      rewrite Forall_forall in Hassign. by destruct (Hassign _ Hin) as (_ & ? & _).
Qed.

End DispatchCases.

(** ** The further statements on concrete inputs *)

Lemma assigner_error_keeps_report_witness :
  @tryCopyMetricToOrcaLoadReport strict_collaborators "named_metrics.foo" "2"
    (set_named_metrics {["foo" := binary64.zero]} default_OrcaLoadReport)
  = (Error kAlreadyExists
       "x-endpoint-load-metrics contains duplicate named metric: foo",
     set_named_metrics {["foo" := binary64.zero]} default_OrcaLoadReport)
  ∧ ∃ key,
      "named_metrics.foo" = "named_metrics." +:+ key
      ∧ is_Some (named_metrics
                   (set_named_metrics {["foo" := binary64.zero]}
                      default_OrcaLoadReport) !! key).
Proof.
  assert (Hrun :
    @tryCopyMetricToOrcaLoadReport strict_collaborators "named_metrics.foo" "2"
      (set_named_metrics {["foo" := binary64.zero]} default_OrcaLoadReport)
    = (Error kAlreadyExists
         "x-endpoint-load-metrics contains duplicate named metric: foo",
       set_named_metrics {["foo" := binary64.zero]} default_OrcaLoadReport)).
  { vm_compute; reflexivity. }
  split; [exact Hrun |].
  apply (proj2 (proj2 (@assigner_error_keeps_report strict_collaborators
                         _ _ _ _ _ _ Hrun))).
  reflexivity.
Defined.

Lemma fixed_field_is_overwritten_witness :
  ∃ r',
    @tryCopyMetricToOrcaLoadReport strict_collaborators "eps" "1"
      (set_eps binary64.d0_5 default_OrcaLoadReport) = (OkStatus, r')
    ∧ field_of "eps" r' = Some (S754_finite false 4503599627370496 (-52))
    ∧ (∀ n, n ≠ "eps" →
            field_of n r'
            = field_of n (set_eps binary64.d0_5 default_OrcaLoadReport))
    ∧ named_metrics r'
      = named_metrics (set_eps binary64.d0_5 default_OrcaLoadReport).
Proof.
  apply (@fixed_field_is_overwritten strict_collaborators "eps" "1"
           (S754_finite false 4503599627370496 (-52))
           (set_eps binary64.d0_5 default_OrcaLoadReport)).
  - apply fixed_field_name_cases. do 3 right. left. reflexivity.
  - reflexivity.
  - vm_compute; reflexivity.
Defined.

Lemma plain_text_decoding_succeeds_iff_witness :
  (∃ r', @tryParseNativeHttpEncoded strict_collaborators
           (single_header kEndpointLoadMetricsHeader "eps:1,named_metrics.a:2")
           default_OrcaLoadReport = (OkStatus, r'))
  ↔ Forall (@assignable strict_collaborators)
      (parseCommaDelimitedHeader
         (single_header kEndpointLoadMetricsHeader "eps:1,named_metrics.a:2"))
    ∧ NoDup (metric_name_of <$>
               parseCommaDelimitedHeader
                 (single_header kEndpointLoadMetricsHeader
                    "eps:1,named_metrics.a:2"))
    ∧ named_keys_free
        (parseCommaDelimitedHeader
           (single_header kEndpointLoadMetricsHeader "eps:1,named_metrics.a:2"))
        default_OrcaLoadReport.
Proof.
  apply (@plain_text_decoding_succeeds_iff strict_collaborators).
  discriminate.
Defined.

Lemma plain_text_decoding_lookups_witness :
  field_of "eps"
    (@tryParseNativeHttpEncoded strict_collaborators
       (single_header kEndpointLoadMetricsHeader "eps:1,named_metrics.a:2")
       default_OrcaLoadReport).2
  = numbers.safe_strtod "1".
Proof.
  apply (proj1 (@plain_text_decoding_lookups strict_collaborators
    (single_header kEndpointLoadMetricsHeader "eps:1,named_metrics.a:2")
    default_OrcaLoadReport _
    ltac:(discriminate) ltac:(vm_compute; reflexivity)) "eps:1").
  - change (parseCommaDelimitedHeader _) with ["eps:1"; "named_metrics.a:2"].
    constructor.
  - change (metric_name_of "eps:1") with "eps".
    apply fixed_field_name_cases. do 3 right. left. reflexivity.
Defined.

Lemma decoded_tokens_are_name_colon_value_witness :
  "named_metrics.a:2"
  = metric_name_of "named_metrics.a:2"
    +:+ String ":" (metric_value_of "named_metrics.a:2")
  ∧ contains (metric_name_of "named_metrics.a:2") ":" = false
  ∧ SkipWhitespace (metric_name_of "named_metrics.a:2") = true
  ∧ SkipWhitespace (metric_value_of "named_metrics.a:2") = true.
Proof.
  apply (@decoded_tokens_are_name_colon_value strict_collaborators
    (single_header kEndpointLoadMetricsHeader "eps:1,named_metrics.a:2")
    default_OrcaLoadReport _ "named_metrics.a:2"
    ltac:(discriminate) ltac:(vm_compute; reflexivity)).
  change (parseCommaDelimitedHeader _) with ["eps:1"; "named_metrics.a:2"].
  constructor. constructor.
Defined.

Lemma later_occurrences_cannot_repair_a_failure_witness :
  @tryParseNativeHttpEncoded strict_collaborators
    (single_header kEndpointLoadMetricsHeader "eps:x"
     ++ single_header kEndpointLoadMetricsHeader "eps:1")
    default_OrcaLoadReport
  = (Error kInvalidArgument
       "unable to parse custom backend load metric value({}): epsx",
     default_OrcaLoadReport).
Proof.
  apply (@later_occurrences_cannot_repair_a_failure strict_collaborators).
  - discriminate.
  - vm_compute; reflexivity.
Defined.

Lemma already_exists_means_repeated_name_witness :
  ∃ pre token post,
    parseCommaDelimitedHeader
      (single_header kEndpointLoadMetricsHeader
         "named_metrics.a:1,eps:2,named_metrics.a:3")
    = pre ++ token :: post
    ∧ metric_name_of token ∈ (metric_name_of <$> pre)
    ∧ "x-endpoint-load-metrics contains duplicate metric: named_metrics.a"
      = StrCat [kEndpointLoadMetricsHeader; " contains duplicate metric: ";
                metric_name_of token]
    ∧ @tryParseNativeHttpEncoded_loop strict_collaborators pre ∅
        default_OrcaLoadReport
      = (OkStatus,
         (@tryParseNativeHttpEncoded strict_collaborators
            (single_header kEndpointLoadMetricsHeader
               "named_metrics.a:1,eps:2,named_metrics.a:3")
            default_OrcaLoadReport).2).
Proof.
  apply (@already_exists_means_repeated_name strict_collaborators).
  - discriminate.
  - reflexivity.
  - vm_compute; reflexivity.
Defined.

Lemma token_order_is_irrelevant_witness :
  @tryParseNativeHttpEncoded strict_collaborators
    (single_header kEndpointLoadMetricsHeader "named_metrics.a:2,eps:1")
    default_OrcaLoadReport
  = (OkStatus,
     (@tryParseNativeHttpEncoded strict_collaborators
        (single_header kEndpointLoadMetricsHeader "eps:1,named_metrics.a:2")
        default_OrcaLoadReport).2).
Proof.
  apply (@token_order_is_irrelevant strict_collaborators
    (single_header kEndpointLoadMetricsHeader "eps:1,named_metrics.a:2")
    (single_header kEndpointLoadMetricsHeader "named_metrics.a:2,eps:1")).
  - discriminate.
  - discriminate.
  - change (parseCommaDelimitedHeader
              (single_header kEndpointLoadMetricsHeader "eps:1,named_metrics.a:2"))
      with ["eps:1"; "named_metrics.a:2"].
    change (parseCommaDelimitedHeader
              (single_header kEndpointLoadMetricsHeader "named_metrics.a:2,eps:1"))
      with ["named_metrics.a:2"; "eps:1"].
    apply perm_swap.
  - vm_compute; reflexivity.
Defined.

Lemma error_codes_without_json_witness :
  (kAlreadyExists = kNotFound
   ∧ formats_present
       (single_header kEndpointLoadMetricsHeader "eps:1,eps:2") = 0)
  ∨ (kAlreadyExists = kInvalidArgument
     ∧ formats_present
         (single_header kEndpointLoadMetricsHeader "eps:1,eps:2") ≠ 0)
  ∨ (kAlreadyExists = kAlreadyExists
     ∧ Http.get (single_header kEndpointLoadMetricsHeader "eps:1,eps:2")
         kEndpointLoadMetricsHeader ≠ []
     ∧ Http.get (single_header kEndpointLoadMetricsHeader "eps:1,eps:2")
         kEndpointLoadMetricsHeaderBin = []).
Proof.
  apply (@error_codes_without_json strict_collaborators
           (single_header kEndpointLoadMetricsHeader "eps:1,eps:2")
           kAlreadyExists
           "x-endpoint-load-metrics contains duplicate metric: eps").
  - reflexivity.
  - vm_compute; reflexivity.
Defined.

Lemma plain_text_header_without_tokens_witness :
  @parseOrcaLoadReportHeaders strict_collaborators
    [Http.mkHeaderEntry kEndpointLoadMetricsHeader " , ";
     Http.mkHeaderEntry kEndpointLoadMetricsHeader ""]
  = Value default_OrcaLoadReport.
Proof.
  apply (@plain_text_header_without_tokens strict_collaborators).
  - reflexivity.
  - reflexivity.
  - discriminate.
  - vm_compute; reflexivity.
Defined.

Lemma other_entries_are_ignored_witness :
  @parseOrcaLoadReportHeaders strict_collaborators
    (single_header kEndpointLoadMetricsHeader "eps:1"
     ++ Http.mkHeaderEntry "content-type" "text/plain" :: [])
  = @parseOrcaLoadReportHeaders strict_collaborators
      (single_header kEndpointLoadMetricsHeader "eps:1" ++ []).
Proof.
  apply (@other_entries_are_ignored strict_collaborators).
  unfold orca_key. intros [Hk | [Hk | Hk]]; discriminate Hk.
Defined.

Lemma plain_text_report_holds_only_the_tokens_witness :
  field_of "cpu_utilization"
    (mkOrcaLoadReport binary64.zero binary64.zero binary64.zero
       (S754_finite false 4503599627370496 (-52)) binary64.zero ∅)
  = Some binary64.zero.
Proof.
  apply (proj1 (@plain_text_report_holds_only_the_tokens strict_collaborators
    (single_header kEndpointLoadMetricsHeader "eps:1") _
    eq_refl eq_refl ltac:(vm_compute; reflexivity)) "cpu_utilization").
  - apply fixed_field_name_cases. left. reflexivity.
  - change (metric_name_of <$> parseCommaDelimitedHeader _) with ["eps"].
    intros Hin. apply elem_of_cons in Hin as [Hin | Hin]; [discriminate Hin |].
    exact (proj1 (elem_of_nil _) Hin).
Defined.
